(** * biostar4.forum.forms: validators of the forum's forms

    A shallow embedding of [biostar4/forum/forms.py]: the module-level
    validators ([unique_email], [check_email], [check_tags]), the CAPTCHA
    hooks ([get_captcha_field], [validate_captcha]), the attribute copier
    [update] and the [clean_<field>] methods of [UserEditForm].

    Python values are modelled as follows.
    - [str] is [string]; a character is a code point below 256.
    - A call either returns a value or raises: [result A].
    - [None] is [tt].
    - A dict used as a map is a [gmap]; where the iteration order of its
      items is visible ([cleaned_data.items()]) it is an association list in
      insertion order.
    - The ORM is a table of [User] rows held in a [Database]; code that
      queries it lives in the monad [M], which threads the database. *)

From Stdlib Require Import Ascii String.
From stdpp Require Import base decidable list strings gmap pretty.

Local Open Scope string_scope.
#[local] Set Warnings "-clear-no-such-hyp".

(** ** Python outcomes *)

Inductive exn : Type :=
| ValidationError (message : string).

Inductive result (A : Type) : Type :=
| Return (value : A)
| Raise (error : exn).

Arguments Return {A} value.
Arguments Raise {A} error.

Definition returns {A} (r : result A) : bool :=
  match r with Return _ => true | Raise _ => false end.

Definition raised_message {A} (r : result A) : option string :=
  match r with
  | Return _ => None
  | Raise (ValidationError m) => Some m
  end.

(** ** Python strings *)

Module Str.

(** [len(s)] *)
Definition len (s : string) : nat := String.length s.

(** [c in chars] *)
Fixpoint contains (chars : string) (c : ascii) : bool :=
  match chars with
  | EmptyString => false
  | String d chars' => if decide (c = d) then true else contains chars' c
  end.

(** [c.isspace()] on code points below 256: TAB..CR, FS..US, SPACE,
    NEL (0x85) and NBSP (0xA0). *)
Definition isspace (c : ascii) : bool :=
  let n := N_of_ascii c in
  ((9 <=? n) && (n <=? 13) || (28 <=? n) && (n <=? 32)
   || (n =? 133) || (n =? 160))%N.

(** [c.lower()] on code points below 256: A..Z and the Latin-1 capitals
    0xC0..0xDE (the multiplication sign 0xD7 apart) move up by 32. *)
Definition lower_char (c : ascii) : ascii :=
  let n := N_of_ascii c in
  if ((65 <=? n) && (n <=? 90)
      || (192 <=? n) && (n <=? 222) && negb (n =? 215))%N
  then ascii_of_N (n + 32) else c.

(** [s.lower()] *)
Fixpoint lower (s : string) : string :=
  match s with
  | EmptyString => EmptyString
  | String c s' => String (lower_char c) (lower s')
  end.

(** [s.lstrip(chars)] *)
Fixpoint lstrip (chars s : string) : string :=
  match s with
  | EmptyString => EmptyString
  | String c s' => if contains chars c then lstrip chars s' else s
  end.

(** [s.rstrip(chars)] *)
Definition rstrip (chars s : string) : string :=
  String.rev (lstrip chars (String.rev s)).

(** [s.strip(chars)] *)
Definition strip (chars s : string) : string :=
  rstrip chars (lstrip chars s).

(** [s.split()]: the maximal runs of characters that are not white space. *)
Fixpoint split (s : string) : list string :=
  match s with
  | EmptyString => []
  | String c s' =>
      if isspace c then split s'
      else match s' with
           | EmptyString => [String c EmptyString]
           | String c' _ =>
               if isspace c' then String c EmptyString :: split s'
               else match split s' with
                    | w :: ws => String c w :: ws
                    | [] => [String c EmptyString]
                    end
           end
  end.

(** [sep.join(parts)] *)
Fixpoint join (sep : string) (parts : list string) : string :=
  match parts with
  | [] => EmptyString
  | [p] => p
  | p :: parts' => p +:+ sep +:+ join sep parts'
  end.

(** [s.startswith(prefix)] *)
Fixpoint startswith (s prefix : string) : bool :=
  match prefix, s with
  | EmptyString, _ => true
  | String p prefix', String c s' =>
      if decide (c = p) then startswith s' prefix' else false
  | String _ _, EmptyString => false
  end.

(** [str(n)] / ['{}'.format(n)] for a non-negative int. *)
Definition of_nat (n : nat) : string := pretty n.

End Str.

(** Truth value of a Python sequence: non-empty. *)
Definition truthy {A} (l : list A) : bool :=
  match l with [] => false | _ :: _ => true end.

(** ** The ORM: users and the database *)

(** A stored upload ([up.id], [up.name]). *)
Record Upload : Type := { upload_id : nat; upload_name : string }.

(** A [User] row, with the uploads that [user.profile.files()] lists. *)
Record User : Type := {
  id : nat;
  email : string;
  username : string;
  profile_files : list Upload
}.

Record Database : Type := { User_objects : list User }.

(** Code that talks to the ORM: it reads (and may write) the database and
    either returns or raises. *)
Definition M (A : Type) : Type := Database → result A * Database.

Definition ret {A} (a : A) : M A := λ db, (Return a, db).

Definition raise {A} (e : exn) : M A := λ db, (Raise e, db).

Definition bind {A B} (m : M A) (k : A → M B) : M B :=
  λ db, match m db with
        | (Return a, db') => k a db'
        | (Raise e, db') => (Raise e, db')
        end.

Notation "x <- m ;; k" := (bind m (λ x, k))
  (at level 100, m at next level, right associativity,
   format "'[v' x  <-  m  ;;  '/' k ']'").

(** [User.objects.filter(<field>=value)], evaluated: the rows that match,
    in table order. *)
Definition User_objects_filter (P : User → Prop) `{∀ u, Decision (P u)}
  : M (list User) :=
  λ db, (Return (filter P (User_objects db)), db).


Definition outcome {A} (m : M A) (db : Database) : result A := fst (m db).
Definition final {A} (m : M A) (db : Database) : Database := snd (m db).

(** ** CAPTCHA hooks *)

Record Settings : Type := {
  RECAPTCHA_ENABLED : bool;
  RECAPTCHA_SITE_KEY : string;
  RECAPTCHA_SECRET_KEY : string
}.

Section Captcha.

(** The request object handed over by the framework. *)
Variable Request : Type.

(** [biostar4.forum.ext.captcha]: the two entry points this module calls.
    [captcha_service] is what the remote verification answers for a
    request and a secret key. *)
Variable captcha_html_field : string → string.
Variable captcha_service : Request → string → result (bool * string).

(** Calls that went out to the CAPTCHA service, oldest first. *)
Definition ServiceLog : Type := list (Request * string).

Definition captcha_validate_captcha (request : Request) (key : string)
  : ServiceLog → result (bool * string) * ServiceLog :=
  λ log, (captcha_service request key, (log ++ [(request, key)])%list).

Definition get_captcha_field (settings : Settings) : string :=
  if RECAPTCHA_ENABLED settings
  then captcha_html_field (RECAPTCHA_SITE_KEY settings)
  else "".

Definition validate_captcha (settings : Settings) (request : Request)
  : ServiceLog → result (bool * string) * ServiceLog :=
  if RECAPTCHA_ENABLED settings
  then captcha_validate_captcha request (RECAPTCHA_SECRET_KEY settings)
  else λ log, (Return (true, "RECAPTCHA disabled"), log).

End Captcha.

(** ** Module-level validators *)

Definition unique_email (email_ : string) : M unit :=
  found <- User_objects_filter (λ u, email u = email_) ;;
  if truthy found
  then raise (ValidationError ("The " +:+ email_ +:+ " email already exists "))
  else ret tt.

Definition check_email (email_ : string) : M unit :=
  found <- User_objects_filter (λ u, email u = email_) ;;
  if negb (truthy found)
  then raise (ValidationError ("The " +:+ email_ +:+ " email does not exists "))
  else ret tt.

Section Tags.

(** [biostar4.forum.utils.parse_tags]: splits the text of a tag field into
    tags. *)
Variable parse_tags : string → list string.

Definition check_tags (text : string) : result unit :=
  let tags := parse_tags text in
  let bigs := filter (λ tag, 10 < Str.len tag) tags in
  let dups :=
    negb (bool_decide (size (list_to_set tags : gset string) = length tags)) in
  if bool_decide (10 < length tags)
  then Raise (ValidationError
                ("You have too many tags: " +:+ Str.of_nat (length tags)))
  else if dups
  then Raise (ValidationError "Duplicated tags in input")
  else if truthy bigs
  then Raise (ValidationError
                ("These tags are too long: " +:+ Str.join "," bigs +:+ " "))
  else Return tt.

End Tags.

(** ** Declared form fields *)

(** The framework's side of [validators=[...]]: every validator of the list
    is called on the value, in order, and the errors of those that raise are
    collected. *)
Fixpoint run_validators (validators : list (string → M unit)) (value : string)
  : M (list exn) :=
  match validators with
  | [] => ret []
  | v :: vs =>
      λ db, match v value db with
            | (Return _, db') => run_validators vs value db'
            | (Raise e, db') =>
                (errors <- run_validators vs value ;; ret (e :: errors)) db'
            end
  end.

(** [s.lstrip()] and [s.strip()], without argument: white space goes. *)
Fixpoint lstrip_space (s : string) : string :=
  match s with
  | EmptyString => EmptyString
  | String c s' => if Str.isspace c then lstrip_space s' else s
  end.

Definition strip_space (s : string) : string :=
  String.rev (lstrip_space (String.rev (lstrip_space s))).

(** What the declaration of a [forms.CharField] fixes for validation:
    [required] (True unless given), [min_length], [max_length] (None unless
    given) and [validators]. *)
Record CharField : Type := {
  field_required : bool;
  field_min_length : option nat;
  field_max_length : option nat;
  field_validators : list (string → M unit)
}.

(** Cleaning of a submitted value by a [CharField]: the cleaned text, or
    None when the field has an error. A value that is missing counts as
    empty and the text is stripped of white space; an empty text is an error
    exactly when the field is required, and the validators are not run on
    it; otherwise the declared validators and the two length checks are all
    run, and any failure is an error. *)
Definition CharField_clean (field : CharField) (value : option string)
  : M (option string) :=
  let value :=
    match value with
    | Some s => strip_space s
    | None => ""
    end in
  if bool_decide (value = "")
  then ret (if field_required field then None else Some value)
  else
    errors <- run_validators (field_validators field) value ;;
    let too_short :=
      match field_min_length field with
      | Some n => bool_decide (Str.len value < n)
      | None => false
      end in
    let too_long :=
      match field_max_length field with
      | Some n => bool_decide (n < Str.len value)
      | None => false
      end in
    ret (if truthy errors || too_short || too_long then None else Some value).

(** [SignupForm.email] and [SignupForm.password] *)
Definition SignupForm_email : CharField :=
  {| field_required := true; field_min_length := Some 5;
     field_max_length := Some 100; field_validators := [unique_email] |}.

Definition SignupForm_password : CharField :=
  {| field_required := true; field_min_length := Some 6;
     field_max_length := Some 100; field_validators := [] |}.

(** [SignupForm(data).is_valid()]: both fields are cleaned, in the order of
    their declaration, and the form is valid when neither has an error. *)
Definition SignupForm_is_valid (data : gmap string string) : M bool :=
  email_ <- CharField_clean SignupForm_email (data !! "email") ;;
  password <- CharField_clean SignupForm_password (data !! "password") ;;
  ret (bool_decide (is_Some email_) && bool_decide (is_Some password)).


(** ** update *)

Section Update.

(** Attribute values. *)
Context {Value : Type}.

(** A bound form as [update] sees it: the verdict of [is_valid()] and the
    items of [cleaned_data], in insertion order. *)
Record Form : Type := {
  is_valid : bool;
  cleaned_data : list (string * Value)
}.

(** Objects live in a heap, addressed by identity; an object is the map of
    its attributes. *)
Definition hasattr (heap : gmap nat (gmap string Value)) (obj : nat)
  (name : string) : bool :=
  match heap !! obj with
  | Some attrs => bool_decide (is_Some (attrs !! name))
  | None => false
  end.

Definition setattr (heap : gmap nat (gmap string Value)) (obj : nat)
  (name : string) (value : Value) : gmap nat (gmap string Value) :=
  alter (λ attrs, <[name := value]> attrs) obj heap.

Definition update_item (obj : nat) (heap : gmap nat (gmap string Value))
  (item : string * Value) : gmap nat (gmap string Value) :=
  if hasattr heap obj item.1 then setattr heap obj item.1 item.2 else heap.

Definition update (obj : nat) (form : Form)
  (heap : gmap nat (gmap string Value))
  : nat * gmap nat (gmap string Value) :=
  if is_valid form
  then (obj, foldl (update_item obj) heap (cleaned_data form))
  else (obj, heap).

End Update.

Arguments Form Value : clear implicits.

(** ** UserEditForm *)

(** A file submitted with the form. *)
Record File : Type := { file_name : string; file_size : nat }.

(** The form while its fields are cleaned: [self.user] and the entries of
    [self.cleaned_data] that the [clean_<field>] methods read. The framework
    stores [cleaned_data[<field>]] right before it calls [clean_<field>]. *)
Record UserEditForm : Type := {
  user : User;
  cleaned_data_files : list File;
  cleaned_data_email : string;
  cleaned_data_username : string
}.

(** [a and User.objects.filter(...)] as a condition: the query is only
    evaluated when [a] holds. *)
Definition and_query (a : bool) (query : M (list User)) : M bool :=
  if a then found <- query ;; ret (truthy found) else ret false.

Section UserEdit.

(** [Profile.MAX_FILE_NUM] *)
Variable MAX_FILE_NUM : nat.

Definition clean_files (self : UserEditForm) : result (list File) :=
  let text := cleaned_data_files self in
  let count := length (profile_files (user self)) in
  if truthy text && bool_decide (MAX_FILE_NUM < count)
  then Raise (ValidationError
                ("Only " +:+ Str.of_nat MAX_FILE_NUM
                 +:+ " file uploads are allowed. You have "
                 +:+ Str.of_nat count))
  else Return text.

End UserEdit.

Definition clean_email (self : UserEditForm) : M string :=
  let text := cleaned_data_email self in
  clash <- and_query (bool_decide (text ≠ email (user self)))
             (User_objects_filter (λ u, email u = text)) ;;
  if clash
  then raise (ValidationError ("The email " +:+ text +:+ " already exists "))
  else ret text.

Definition clean_username (self : UserEditForm) : M string :=
  let text := cleaned_data_username self in
  let text := Str.lower text in
  let text := Str.strip " @" text in
  let text := Str.join "" (Str.split text) in
  clash <- and_query (bool_decide (text ≠ username (user self)))
             (User_objects_filter (λ u, username u = text)) ;;
  if clash
  then raise (ValidationError
                ("The username " +:+ text +:+ " already exists "))
  else if bool_decide (text ≠ username (user self))
          && Str.startswith text "user"
  then raise (ValidationError
                "New usernames may not start with the word 'user'.")
  else ret text.

(** The three rewriting steps of [clean_username] on their own. *)
Definition normalize_username (text : string) : string :=
  Str.join "" (Str.split (Str.strip " @" (Str.lower text))).

(** ** Two profile edits racing for a username *)

(** Where a submitted profile edit stands. *)
Inductive Stage : Type :=
| Submitted
| Validated (text : string)
| Rejected (error : exn)
| Saved (text : string).

(** Modelled from the spec: the later write of the check-then-set, done by
    the view once the form is valid (the view is not part of this module):
    the row of the editing user gets the cleaned username. *)
Definition save_username (uid : nat) (text : string) (db : Database)
  : Database :=
  {| User_objects :=
       (λ u, if decide (id u = uid)
             then {| id := id u; email := email u; username := text;
                     profile_files := profile_files u |}
             else u) <$> User_objects db |}.

(** One atomic step of a submission: validation, then the write. Nothing
    is held between the two. *)
Definition step (self : UserEditForm) (stage : Stage) (db : Database)
  : Stage * Database :=
  match stage with
  | Submitted =>
      match clean_username self db with
      | (Return text, db') => (Validated text, db')
      | (Raise e, db') => (Rejected e, db')
      end
  | Validated text => (Saved text, save_username (id (user self)) text db)
  | Rejected e => (Rejected e, db)
  | Saved text => (Saved text, db)
  end.

Inductive Who : Type := First | Second.

Record Race : Type := {
  race_db : Database;
  first_stage : Stage;
  second_stage : Stage
}.

(** Runs the two submissions under a schedule: each entry lets one of them
    take its next step on the shared database. *)
Fixpoint run (first second : UserEditForm) (schedule : list Who) (r : Race)
  : Race :=
  match schedule with
  | [] => r
  | First :: rest =>
      let '(stage, db) := step first (first_stage r) (race_db r) in
      run first second rest
        {| race_db := db; first_stage := stage;
           second_stage := second_stage r |}
  | Second :: rest =>
      let '(stage, db) := step second (second_stage r) (race_db r) in
      run first second rest
        {| race_db := db; first_stage := first_stage r;
           second_stage := stage |}
  end.

Definition start (db : Database) : Race :=
  {| race_db := db; first_stage := Submitted; second_stage := Submitted |}.

(** ** LoginForm *)

(** Truth value of [cleaned_data.get(key)]: a string that is there and is
    not empty. *)
Definition truthy_str (value : option string) : bool :=
  match value with
  | Some s => negb (bool_decide (s = ""))
  | None => false
  end.

Section Login.

(** [user.check_password(password)] *)
Variable check_password : User → string → bool.

(** [QuerySet.first()]: the row the ORM puts first among the matches, None
    when there is none. *)
Variable first : list User → option User.

(** [LoginForm.clean], on the text entries of [cleaned_data]. *)
Definition LoginForm_clean (cleaned_data : gmap string string) : M unit :=
  let email_ := cleaned_data !! "email" in
  let password := cleaned_data !! "password" in
  match email_, password with
  | Some e, Some p =>
      if truthy_str email_ && truthy_str password
      then
        found <- User_objects_filter (λ u, email u = e) ;;
        let user := first found in
        let valid :=
          match user with
          | Some u => check_password u p
          | None => false
          end in
        if negb valid
        then raise (ValidationError
                      "Unable to validate this email/password combination")
        else ret tt
      else ret tt
  | _, _ => ret tt
  end.

End Login.

(** ** Form fields and __init__ *)

(** A form field, as far as [__init__] is concerned: its label (None when
    the declaration gives none) and, for a choice field, its choices. *)
Record Field : Type := {
  label : option string;
  choices : list (nat * string)
}.

(** [field.choices = choices] *)
Definition set_choices (cs : list (nat * string)) (field : Field) : Field :=
  {| label := label field; choices := cs |}.

(** A post, with the uploads that [post.files()] lists. *)
Record Post : Type := { post_files : list Upload }.

(** The type and status codes of [biostar4.forum.models.Post]. *)
Record PostCodes : Type := {
  QUESTION : nat; FORUM : nat; JOB : nat; NEWS : nat; TUTORIAL : nat;
  TOOL : nat;
  DRAFT : nat; PUBLISHED : nat; DELETED : nat
}.

(** The declared fields of [UserEditForm], in order. *)
Definition UserEditForm_base_fields : list (string * Field) :=
  [ ("name", {| label := Some "Name"; choices := [] |});
    ("email", {| label := Some "Email"; choices := [] |});
    ("username", {| label := Some "Username"; choices := [] |});
    ("twitter", {| label := Some "Twitter"; choices := [] |});
    ("scholar", {| label := Some "Scholar"; choices := [] |});
    ("website", {| label := Some "Website"; choices := [] |});
    ("location", {| label := Some "Location"; choices := [] |});
    ("my_tags", {| label := Some "My Tags"; choices := [] |});
    ("watched_tags", {| label := Some "Watched Tags"; choices := [] |});
    ("text", {| label := Some "About me"; choices := [] |});
    ("files", {| label := Some "Attach files"; choices := [] |});
    ("remove", {| label := Some "Remove uploaded files"; choices := [] |}) ].

(** [TopLevel.POST_TYPES] and [TopLevel.POST_STATUS] *)
Definition POST_TYPES (codes : PostCodes) : list (nat * string) :=
  [ (QUESTION codes, "Question"); (FORUM codes, "Forum"); (JOB codes, "Job");
    (NEWS codes, "News"); (TUTORIAL codes, "Tutorial"); (TOOL codes, "Tool") ].

Definition POST_STATUS (codes : PostCodes) : list (nat * string) :=
  [ (DRAFT codes, "Draft"); (PUBLISHED codes, "Publish");
    (DELETED codes, "Delete") ].

(** The declared fields of [TopLevel], in order. *)
Definition TopLevel_base_fields (codes : PostCodes) : list (string * Field) :=
  [ ("title", {| label := Some "Post title"; choices := [] |});
    ("tags", {| label := Some "Tags"; choices := [] |});
    ("type", {| label := Some "Post type"; choices := POST_TYPES codes |});
    ("status", {| label := None; choices := POST_STATUS codes |});
    ("text", {| label := Some "Post body"; choices := [] |});
    ("files", {| label := Some "Attach files"; choices := [] |});
    ("remove", {| label := Some "Remove uploaded files"; choices := [] |}) ].

(** The choices of the remove field: id and name of every stored upload. *)
Definition upload_choices (uploads : list Upload) : list (nat * string) :=
  (λ up, (upload_id up, upload_name up)) <$> uploads.

(** The end of both [__init__] methods: the remove field gets the choices,
    or is deleted when there is none. *)
Definition populate_remove (cs : list (nat * string))
  (fields : gmap string Field) : gmap string Field :=
  if truthy cs
  then alter (set_choices cs) "remove" fields
  else delete "remove" fields.

(** [UserEditForm.__init__]: [self.fields] once it is done. *)
Definition UserEditForm_init (user_ : User) : gmap string Field :=
  let fields := list_to_map UserEditForm_base_fields in
  let cs := upload_choices (profile_files user_) in
  populate_remove cs fields.

(** [TopLevel.__init__]: [self.fields] once it is done. [post] is None for a
    new post. *)
Definition TopLevel_init (codes : PostCodes) (post : option Post)
  : gmap string Field :=
  let fields := list_to_map (TopLevel_base_fields codes) in
  let cs :=
    match post with
    | Some p => upload_choices (post_files p)
    | None => []
    end in
  populate_remove cs fields.

(** ** Tag fields *)

(** Outcome of code that indexes a dict: the value, or KeyError. *)
Inductive indexed (A : Type) : Type :=
| Got (value : A)
| KeyError (key : string).

Arguments Got {A} value.
Arguments KeyError {A} key.

Section TagFields.

Variable parse_tags : string → list string.

(** [UserEditForm.clean_my_tags] *)
Definition clean_my_tags (cleaned_data : gmap string string)
  : indexed string :=
  match cleaned_data !! "my_tags" with
  | Some text => Got (Str.join "," (parse_tags text))
  | None => KeyError "my_tags"
  end.

(** [UserEditForm.clean_watched_tags] *)
Definition clean_watched_tags (cleaned_data : gmap string string)
  : indexed string :=
  match cleaned_data !! "watched_tags" with
  | Some text => Got (Str.join "," (parse_tags text))
  | None => KeyError "watched_tags"
  end.

(** [TopLevel.clean_tag_val] *)
Definition clean_tag_val (cleaned_data : gmap string string)
  : indexed string :=
  match cleaned_data !! "tag_val" with
  | Some text => Got (Str.join "," (parse_tags text))
  | None => KeyError "tag_val"
  end.

End TagFields.

(** ** Shapes of a validator's failures *)

(** The validator's errors all carry one and the same message, whatever the
    input and the database. *)
Definition static_message {I A : Type} (validator : I → Database → result A)
  : Prop :=
  ∃ fixed, ∀ input db m,
    validator input db = Raise (ValidationError m) → m = fixed.

(** The validator reports failure through its return value: it returns on
    every input and database. *)
Definition always_returns {I A : Type}
  (validator : I → Database → result A) : Prop :=
  ∀ input db, returns (validator input db) = true.

(** ** Sample data *)

Module Sample.

Definition ann : User :=
  {| id := 1; email := "ann@example.org"; username := "ann";
     profile_files := [] |}.

Definition bob : User :=
  {| id := 2; email := "bob@example.org"; username := "bob";
     profile_files :=
       [ {| upload_id := 1; upload_name := "cv.pdf" |};
         {| upload_id := 2; upload_name := "poster.pdf" |};
         {| upload_id := 3; upload_name := "talk.pdf" |};
         {| upload_id := 4; upload_name := "notes.txt" |} ] |}.

Definition db : Database := {| User_objects := [ann; bob] |}.


(** A tag parser to run examples with: tags separated by white space. *)
Definition parse_tags (text : string) : list string := Str.split text.

Definition captcha_off : Settings :=
  {| RECAPTCHA_ENABLED := false; RECAPTCHA_SITE_KEY := "site";
     RECAPTCHA_SECRET_KEY := "secret" |}.

(** A CAPTCHA service that turns every request down. *)
Definition deny (request : nat) (key : string) : result (bool * string) :=
  Return (false, "denied").

(** The text "@ <TAB>@bob". *)
Definition at_tab_bob : string :=
  String "@" (String " " (String "009" "@bob")).

Definition edit (u : User) (name : string) : UserEditForm :=
  {| user := u; cleaned_data_files := []; cleaned_data_email := email u;
     cleaned_data_username := name |}.

(** Passwords for the examples: "pw-" followed by the username. *)
Definition check_password (u : User) (password : string) : bool :=
  bool_decide (password = "pw-" +:+ username u).

Definition login (e password : string) : gmap string string :=
  {[ "email" := e; "password" := password ]}.

Definition codes : PostCodes :=
  {| QUESTION := 0; FORUM := 1; JOB := 2; NEWS := 3; TUTORIAL := 4;
     TOOL := 5; DRAFT := 0; PUBLISHED := 1; DELETED := 2 |}.

End Sample.

(** * Properties *)

(** ** Helper lemmas *)

Lemma truthy_true {A} (l : list A) : truthy l = true ↔ l ≠ [].
Proof. destruct l; simpl; split; intros; congruence. Qed.

Lemma truthy_false {A} (l : list A) : truthy l = false ↔ l = [].
Proof. destruct l; simpl; split; intros; congruence. Qed.

Lemma truthy_filter {A} (P : A → Prop) `{∀ x, Decision (P x)} (l : list A) :
  truthy (filter P l) = true ↔ ∃ x, x ∈ l ∧ P x.
Proof.
  rewrite truthy_true. split.
  - intros Hne. destruct (filter P l) as [|x l'] eqn:E; [done|].
    exists x. apply and_comm, (list_elem_of_filter P). rewrite E. left.
  - intros (x & Hx & HP) E.
    assert (x ∈ filter P l) as Hin by (by apply list_elem_of_filter).
    rewrite E in Hin. by apply not_elem_of_nil in Hin.
Qed.


(** [len(set(tags)) != len(tags)] detects exactly the lists with a repeated
    element. *)
Lemma size_list_to_set_le (l : list string) :
  (size (list_to_set l : gset string) ≤ length l)%nat.
Proof.
  induction l as [|x l IH].
  - rewrite list_to_set_nil, size_empty. done.
  - rewrite list_to_set_cons, size_union_alt, size_singleton. simpl.
    assert (size (list_to_set l ∖ {[x]} : gset string)
            ≤ size (list_to_set l : gset string))%nat.
    { apply subseteq_size. set_solver. }
    lia.
Qed.

Lemma size_list_to_set_NoDup (l : list string) :
  size (list_to_set l : gset string) = length l ↔ NoDup l.
Proof.
  split; [|apply size_list_to_set].
  induction l as [|x l IH]; [constructor|].
  rewrite list_to_set_cons. simpl. intros Hsize.
  destruct (decide (x ∈ l)) as [Hin|Hnin].
  - exfalso.
    assert ({[x]} ∪ list_to_set l = (list_to_set l : gset string)) as Heq
      by set_solver.
    rewrite Heq in Hsize. pose proof (size_list_to_set_le l). lia.
  - constructor; [done|]. apply IH.
    rewrite size_union in Hsize by set_solver.
    rewrite size_singleton in Hsize. lia.
Qed.

Lemma User_objects_filter_run (P : User → Prop) `{∀ u, Decision (P u)} db :
  User_objects_filter P db = (Return (filter P (User_objects db)), db).
Proof. reflexivity. Qed.

Lemma and_query_run (a : bool) (P : User → Prop) `{∀ u, Decision (P u)} db :
  and_query a (User_objects_filter P) db
  = (Return (a && truthy (filter P (User_objects db))), db).
Proof. destruct a; reflexivity. Qed.

(** ** check_tags *)

(** The four ways through [check_tags]. *)
Lemma check_tags_cases (parse_tags : string → list string) (text : string) :
  let tags := parse_tags text in
  let bigs := filter (λ tag, 10 < Str.len tag) tags in
  (10 < length tags
   ∧ check_tags parse_tags text
     = Raise (ValidationError
                ("You have too many tags: " +:+ Str.of_nat (length tags))))
  ∨ (¬ 10 < length tags ∧ ¬ NoDup tags
     ∧ check_tags parse_tags text
       = Raise (ValidationError "Duplicated tags in input"))
  ∨ (¬ 10 < length tags ∧ NoDup tags
     ∧ (∃ tag, tag ∈ tags ∧ 10 < Str.len tag)
     ∧ check_tags parse_tags text
       = Raise (ValidationError
                  ("These tags are too long: " +:+ Str.join "," bigs +:+ " ")))
  ∨ (¬ 10 < length tags ∧ NoDup tags
     ∧ (¬ ∃ tag, tag ∈ tags ∧ 10 < Str.len tag)
     ∧ check_tags parse_tags text = Return tt).
Proof.
  intros tags bigs. unfold check_tags. fold tags bigs.
  case_bool_decide as Hmany; [by left|right].
  pose proof (size_list_to_set_NoDup tags) as Hdup.
  case_bool_decide as Hsize; simpl.
  - apply Hdup in Hsize. right.
    pose proof (truthy_filter (λ tag, 10 < Str.len tag) tags) as Hbig.
    fold bigs in Hbig. destruct (truthy bigs).
    + left. split_and!; try done. by apply Hbig.
    + right. split_and!; try done. intros Hex. by apply Hbig in Hex.
  - left. split_and!; try done. intros Hnd. by apply Hsize, Hdup.
Qed.

(** C1. [check_tags] raises a ValidationError exactly when the parsed tag
    list has more than 10 tags, has a duplicate, or has a tag of more than 10
    characters. The three checks come in that order: too many tags wins over
    the other two, a duplicate wins over a too long tag. When none of the
    three holds the call returns (None). *)
Theorem check_tags_raises_iff (parse_tags : string → list string)
  (text : string) :
  let tags := parse_tags text in
  let too_many := 10 < length tags in
  let duplicate := ¬ NoDup tags in
  let too_long := ∃ tag, tag ∈ tags ∧ 10 < Str.len tag in
  ((∃ m, check_tags parse_tags text = Raise (ValidationError m))
   ↔ too_many ∨ duplicate ∨ too_long)
  ∧ (too_many →
     check_tags parse_tags text
     = Raise (ValidationError
                ("You have too many tags: " +:+ Str.of_nat (length tags))))
  ∧ (¬ too_many → duplicate →
     check_tags parse_tags text
     = Raise (ValidationError "Duplicated tags in input"))
  ∧ (¬ too_many → ¬ duplicate → too_long →
     check_tags parse_tags text
     = Raise (ValidationError
                ("These tags are too long: "
                 +:+ Str.join "," (filter (λ tag, 10 < Str.len tag) tags)
                 +:+ " ")))
  ∧ (¬ (too_many ∨ duplicate ∨ too_long) →
     check_tags parse_tags text = Return tt).
Proof.
  intros tags too_many duplicate too_long.
  destruct (check_tags_cases parse_tags text)
    as [[Hm ->]|[(Hm & Hd & ->)|[(Hm & Hd & Hl & ->)|(Hm & Hd & Hl & ->)]]];
    fold tags in Hm |- *; try fold tags in Hd; try fold tags in Hl.
  all: subst too_many duplicate too_long; split_and!;
    try (intros; first [done | exfalso; tauto]).
  - split; [by left|by eexists].
  - split; [by right; left|by eexists].
  - split; [by right; right|by eexists].
  - split; [by intros [m ?]|tauto].
Qed.

(** The three errors, in order of precedence, and a passing input. *)
Lemma check_tags_raises_iff_witness :
  check_tags Sample.parse_tags "a b c d e f g h i j k k abcdefghijkl"
  = Raise (ValidationError "You have too many tags: 13")
  ∧ check_tags Sample.parse_tags "rna rna abcdefghijkl"
    = Raise (ValidationError "Duplicated tags in input")
  ∧ check_tags Sample.parse_tags "rna abcdefghijkl assembly-long"
    = Raise (ValidationError
               "These tags are too long: abcdefghijkl,assembly-long ")
  ∧ check_tags Sample.parse_tags "rna-seq assembly" = Return tt.
Proof.
  pose proof (check_tags_raises_iff Sample.parse_tags
                "a b c d e f g h i j k k abcdefghijkl") as (_ & H1 & _).
  pose proof (check_tags_raises_iff Sample.parse_tags
                "rna rna abcdefghijkl") as (_ & _ & H2 & _).
  pose proof (check_tags_raises_iff Sample.parse_tags
                "rna abcdefghijkl assembly-long") as (_ & _ & _ & H3 & _).
  pose proof (check_tags_raises_iff Sample.parse_tags
                "rna-seq assembly") as (_ & _ & _ & _ & H4).
  split; [|split; [|split]].
  - apply H1. vm_compute. lia.
  - apply H2; [vm_compute; lia|].
    intros Hnd. vm_compute in Hnd. apply NoDup_cons_1_1 in Hnd.
    apply Hnd. left.
  - apply H3; [vm_compute; lia| |].
    + intros Hnd. apply Hnd. vm_compute. repeat constructor; set_solver.
    + exists "abcdefghijkl". split; [vm_compute; set_solver|vm_compute; lia].
  - apply H4. vm_compute. intros [H|[H|H]].
    + lia.
    + apply H. repeat constructor; set_solver.
    + destruct H as (tag & Hin & Hlen).
      apply list_elem_of_In in Hin. simpl in Hin.
      destruct Hin as [<-|[<-|[]]]; simpl in Hlen; lia.
Defined.

(** ** unique_email and check_email *)

Lemma email_filter_truthy (e : string) (db : Database) :
  truthy (filter (λ u, email u = e) (User_objects db)) = true
  ↔ ∃ u, u ∈ User_objects db ∧ email u = e.
Proof. apply (truthy_filter (λ u, email u = e)). Qed.

Lemma unique_email_run (e : string) (db : Database) :
  unique_email e db
  = (if truthy (filter (λ u, email u = e) (User_objects db))
     then Raise (ValidationError ("The " +:+ e +:+ " email already exists "))
     else Return tt, db).
Proof.
  unfold unique_email, bind. rewrite User_objects_filter_run.
  by destruct (truthy _).
Qed.

Lemma check_email_run (e : string) (db : Database) :
  check_email e db
  = (if truthy (filter (λ u, email u = e) (User_objects db))
     then Return tt
     else Raise (ValidationError
                   ("The " +:+ e +:+ " email does not exists ")), db).
Proof.
  unfold check_email, bind. rewrite User_objects_filter_run.
  by destruct (truthy _).
Qed.

(** C2. [unique_email] raises a ValidationError if and only if some user row
    with that email is in the database; otherwise it returns (None). Either
    way the database is left as it was. *)
Theorem unique_email_raises_iff (e : string) (db : Database) :
  ((∃ m, outcome (unique_email e) db = Raise (ValidationError m))
   ↔ ∃ u, u ∈ User_objects db ∧ email u = e)
  ∧ ((¬ ∃ u, u ∈ User_objects db ∧ email u = e) →
     outcome (unique_email e) db = Return tt)
  ∧ final (unique_email e) db = db.
Proof.
  unfold outcome, final. rewrite unique_email_run. simpl.
  pose proof (email_filter_truthy e db) as Hfound.
  destruct (truthy _); split_and!; try done.
  - split; [intros _; by apply Hfound|by eexists].
  - intros Hnone. exfalso. apply Hnone. by apply Hfound.
  - split; [by intros [m ?]|]. intros Hu. apply Hfound in Hu. done.
Qed.

Lemma unique_email_raises_iff_witness :
  outcome (unique_email "eve@example.org") Sample.db = Return tt
  ∧ final (unique_email "eve@example.org") Sample.db = Sample.db.
Proof.
  pose proof (unique_email_raises_iff "eve@example.org" Sample.db)
    as (_ & Hret & Hfinal).
  split; [|exact Hfinal].
  apply Hret. intros (u & Hin & He).
  apply list_elem_of_In in Hin. simpl in Hin.
  destruct Hin as [<-|[<-|[]]]; discriminate He.
Defined.

(** ** UserEditForm.clean_files *)

(** C3. [clean_files] raises a ValidationError if and only if the submitted
    files value is non-empty and the number of files already stored on the
    profile is strictly greater than [Profile.MAX_FILE_NUM]. With no
    submitted file it never raises, and whenever it returns, it returns the
    submitted value unchanged. *)
Theorem clean_files_raises_iff (MAX_FILE_NUM : nat) (self : UserEditForm) :
  let files := cleaned_data_files self in
  let stored := length (profile_files (user self)) in
  ((∃ m, clean_files MAX_FILE_NUM self = Raise (ValidationError m))
   ↔ files ≠ [] ∧ MAX_FILE_NUM < stored)
  ∧ (files = [] → clean_files MAX_FILE_NUM self = Return files)
  ∧ (¬ (files ≠ [] ∧ MAX_FILE_NUM < stored) →
     clean_files MAX_FILE_NUM self = Return files)
  ∧ (∀ value, clean_files MAX_FILE_NUM self = Return value → value = files).
Proof.
  intros files stored. unfold clean_files. fold files stored.
  pose proof (truthy_true files) as Ht.
  destruct (truthy files) eqn:Efiles; case_bool_decide; simpl.
  - split_and!; try done.
    + split; [intros _; split; [by apply Ht|done]|by eexists].
    + intros ->. by destruct Ht as [Ht _]; specialize (Ht eq_refl).
    + intros Hn. exfalso. apply Hn. split; [by apply Ht|done].
  - split_and!; try done; [|by intros ? [= <-]].
    split; [by intros [m ?]|by intros [_ ?]].
  - apply truthy_false in Efiles.
    split_and!; try done; [|by intros ? [= <-]].
    split; [by intros [m ?]|by intros [? _]].
  - apply truthy_false in Efiles.
    split_and!; try done; [|by intros ? [= <-]].
    split; [by intros [m ?]|by intros [? _]].
Qed.

Lemma clean_files_raises_iff_witness :
  clean_files 3 {| user := Sample.bob;
                   cleaned_data_files := [];
                   cleaned_data_email := "bob@example.org";
                   cleaned_data_username := "bob" |}
  = Return [].
Proof.
  pose proof (clean_files_raises_iff 3
    {| user := Sample.bob; cleaned_data_files := [];
       cleaned_data_email := "bob@example.org";
       cleaned_data_username := "bob" |}) as (_ & Hnone & _).
  apply Hnone. reflexivity.
Defined.

(** ** UserEditForm.clean_email and clean_username *)

Lemma clean_email_run (self : UserEditForm) (db : Database) :
  clean_email self db
  = (let text := cleaned_data_email self in
     if bool_decide (text ≠ email (user self))
        && truthy (filter (λ u, email u = text) (User_objects db))
     then Raise (ValidationError
                   ("The email " +:+ text +:+ " already exists "))
     else Return text, db).
Proof.
  unfold clean_email, bind. rewrite and_query_run. simpl.
  by destruct (_ && _).
Qed.

Lemma clean_username_run (self : UserEditForm) (db : Database) :
  clean_username self db
  = (let text := normalize_username (cleaned_data_username self) in
     if bool_decide (text ≠ username (user self))
        && truthy (filter (λ u, username u = text) (User_objects db))
     then Raise (ValidationError
                   ("The username " +:+ text +:+ " already exists "))
     else if bool_decide (text ≠ username (user self))
             && Str.startswith text "user"
     then Raise (ValidationError
                   "New usernames may not start with the word 'user'.")
     else Return text, db).
Proof.
  unfold clean_username, bind, normalize_username.
  rewrite and_query_run. simpl.
  destruct (_ && truthy _); [done|]. by destruct (_ && _).
Qed.

(** ** Error messages *)

(** C4, as stated, fails: the message of [unique_email] names the email that
    was submitted, so two failing inputs get two different messages. *)
Lemma static_message_counterexample :
  outcome (unique_email "ann@example.org") Sample.db
  = Raise (ValidationError "The ann@example.org email already exists ")
  ∧ outcome (unique_email "bob@example.org") Sample.db
    = Raise (ValidationError "The bob@example.org email already exists ")
  ∧ ¬ static_message (λ e, outcome (unique_email e)).
Proof.
  split_and!; [reflexivity..|].
  intros [fixed Hfixed].
  pose proof (Hfixed "ann@example.org" Sample.db _ eq_refl) as Ha.
  pose proof (Hfixed "bob@example.org" Sample.db _ eq_refl) as Hb.
  rewrite <- Hb in Ha. discriminate Ha.
Qed.

(** C4, amended. Every validation failure carries an English message built
    from a fixed template. The templates of [unique_email], [check_email],
    [clean_email] and of the uniqueness error of [clean_username] quote the
    submitted (for the username: normalized) value; the too-many-tags error
    quotes the number of tags, the too-long error the offending tags, and
    [clean_files] the limit and the number of stored files. Only the
    duplicate-tags error and the 'user' prefix error are constant strings. *)
Theorem error_message_templates (parse_tags : string → list string)
  (MAX_FILE_NUM : nat) (self : UserEditForm) (value : string)
  (db : Database) (m : string) :
  (outcome (unique_email value) db = Raise (ValidationError m) →
   m = "The " +:+ value +:+ " email already exists ")
  ∧ (outcome (check_email value) db = Raise (ValidationError m) →
     m = "The " +:+ value +:+ " email does not exists ")
  ∧ (check_tags parse_tags value = Raise (ValidationError m) →
     m = "You have too many tags: "
         +:+ Str.of_nat (length (parse_tags value))
     ∨ m = "Duplicated tags in input"
     ∨ m = "These tags are too long: "
           +:+ Str.join ","
                 (filter (λ tag, 10 < Str.len tag) (parse_tags value))
           +:+ " ")
  ∧ (clean_files MAX_FILE_NUM self = Raise (ValidationError m) →
     m = "Only " +:+ Str.of_nat MAX_FILE_NUM
         +:+ " file uploads are allowed. You have "
         +:+ Str.of_nat (length (profile_files (user self))))
  ∧ (outcome (clean_email self) db = Raise (ValidationError m) →
     m = "The email " +:+ cleaned_data_email self +:+ " already exists ")
  ∧ (outcome (clean_username self) db = Raise (ValidationError m) →
     m = "The username "
         +:+ normalize_username (cleaned_data_username self)
         +:+ " already exists "
     ∨ m = "New usernames may not start with the word 'user'.").
Proof.
  unfold outcome. rewrite unique_email_run, check_email_run,
    clean_email_run, clean_username_run. simpl.
  split_and!.
  - destruct (truthy _); by intros [= <-].
  - destruct (truthy _); by intros [= <-].
  - destruct (check_tags_cases parse_tags value)
      as [[_ ->]|[(_ & _ & ->)|[(_ & _ & _ & ->)|(_ & _ & _ & ->)]]];
      intros [= <-]; auto.
  - unfold clean_files. destruct (_ && _); by intros [= <-].
  - destruct (_ && _); by intros [= <-].
  - destruct (_ && truthy _); [intros [= <-]; by left|].
    destruct (_ && _); intros [= <-]. by right.
Qed.

Lemma error_message_templates_witness :
  "The username bob already exists "
  = "The username " +:+ normalize_username " @Bob " +:+ " already exists "
  ∨ "The username bob already exists "
    = "New usernames may not start with the word 'user'.".
Proof.
  apply (proj2 (proj2 (proj2 (proj2 (proj2
    (error_message_templates Sample.parse_tags 3
       (Sample.edit Sample.ann " @Bob ") "" Sample.db
       "The username bob already exists ")))))).
  reflexivity.
Defined.

(** ** How failure is signalled *)

(** C5, as stated, fails: on an email that is taken [unique_email] does not
    return a verdict, it raises. *)
Lemma always_returns_counterexample :
  outcome (unique_email "ann@example.org") Sample.db
  = Raise (ValidationError "The ann@example.org email already exists ")
  ∧ returns (outcome (unique_email "ann@example.org") Sample.db) = false
  ∧ ¬ always_returns (λ e, outcome (unique_email e)).
Proof.
  split_and!; [reflexivity..|].
  intros Hall. specialize (Hall "ann@example.org" Sample.db).
  discriminate Hall.
Qed.

(** C5, amended. [unique_email], [check_email] and [check_tags] return None
    exactly when the input passes and signal failure by raising a
    ValidationError ([check_tags] without reading the database). Only
    [validate_captcha] hands back a verdict: the pair
    (True, "RECAPTCHA disabled") when the CAPTCHA is off, and whatever
    [captcha.validate_captcha] yields when it is on. *)
Theorem validators_raise_on_failure (parse_tags : string → list string)
  (Request : Type)
  (captcha_service : Request → string → result (bool * string))
  (settings : Settings) (request : Request) (log : list (Request * string))
  (value : string) (db : Database) :
  let taken := ∃ u, u ∈ User_objects db ∧ email u = value in
  let tags := parse_tags value in
  let bad_tags :=
    10 < length tags ∨ ¬ NoDup tags
    ∨ ∃ tag, tag ∈ tags ∧ 10 < Str.len tag in
  ((∃ m, outcome (unique_email value) db = Raise (ValidationError m))
   ↔ taken)
  ∧ (outcome (unique_email value) db = Return tt ↔ ¬ taken)
  ∧ ((∃ m, outcome (check_email value) db = Raise (ValidationError m))
     ↔ ¬ taken)
  ∧ (outcome (check_email value) db = Return tt ↔ taken)
  ∧ ((∃ m, check_tags parse_tags value = Raise (ValidationError m))
     ↔ bad_tags)
  ∧ (check_tags parse_tags value = Return tt ↔ ¬ bad_tags)
  ∧ (fst (validate_captcha Request captcha_service settings request log)
     = if RECAPTCHA_ENABLED settings
       then captcha_service request (RECAPTCHA_SECRET_KEY settings)
       else Return (true, "RECAPTCHA disabled")).
Proof.
  intros taken tags bad_tags.
  unfold outcome. rewrite unique_email_run, check_email_run. simpl.
  pose proof (email_filter_truthy value db) as Hfound. fold taken in Hfound.
  split_and!.
  - destruct (truthy _).
    + split; [intros _; by apply Hfound|by eexists].
    + split; [by intros [m ?]|]. intros Ht. by apply Hfound in Ht.
  - destruct (truthy _).
    + split; [done|]. intros Hn. destruct Hn. by apply Hfound.
    + split; [|done]. intros _ Ht. by apply Hfound in Ht.
  - destruct (truthy _).
    + split; [by intros [m ?]|]. intros Hn. destruct Hn. by apply Hfound.
    + split; [|by eexists]. intros _ Ht. by apply Hfound in Ht.
  - destruct (truthy _).
    + split; [intros _; by apply Hfound|done].
    + split; [done|]. intros Ht. by apply Hfound in Ht.
  - subst bad_tags.
    destruct (check_tags_cases parse_tags value)
      as [[Hm ->]|[(Hm & Hd & ->)|[(Hm & Hd & Hl & ->)|(Hm & Hd & Hl & ->)]]];
      fold tags in Hm |- *; try fold tags in Hd; try fold tags in Hl.
    + split; [by left|by eexists].
    + split; [by right; left|by eexists].
    + split; [by right; right|by eexists].
    + split; [by intros [m ?]|tauto].
  - subst bad_tags.
    destruct (check_tags_cases parse_tags value)
      as [[Hm ->]|[(Hm & Hd & ->)|[(Hm & Hd & Hl & ->)|(Hm & Hd & Hl & ->)]]];
      fold tags in Hm |- *; try fold tags in Hd; try fold tags in Hl.
    + split; [done|tauto].
    + split; [done|tauto].
    + split; [done|tauto].
    + split; [tauto|done].
  - unfold validate_captcha. by destruct (RECAPTCHA_ENABLED settings).
Qed.

(** ** CAPTCHA switched off *)

(** C6. With [settings.RECAPTCHA_ENABLED] false, [validate_captcha] returns
    the pair (True, "RECAPTCHA disabled") for every request and sends
    nothing to the CAPTCHA service (the log of calls is as before), and
    [get_captcha_field] returns the empty string. *)
Theorem captcha_disabled (Request : Type)
  (captcha_html_field : string → string)
  (captcha_service : Request → string → result (bool * string))
  (settings : Settings) (request : Request)
  (log : list (Request * string)) :
  RECAPTCHA_ENABLED settings = false →
  validate_captcha Request captcha_service settings request log
  = (Return (true, "RECAPTCHA disabled"), log)
  ∧ get_captcha_field captcha_html_field settings = "".
Proof.
  intros Hoff. unfold validate_captcha, get_captcha_field.
  by rewrite Hoff.
Qed.

Lemma captcha_disabled_witness :
  RECAPTCHA_ENABLED Sample.captcha_off = false
  ∧ validate_captcha nat Sample.deny Sample.captcha_off 7 []
    = (Return (true, "RECAPTCHA disabled"), [])
  ∧ get_captcha_field (λ key, "<div>" +:+ key +:+ "</div>")
      Sample.captcha_off = "".
Proof.
  split; [reflexivity|].
  apply (captcha_disabled nat (λ key, "<div>" +:+ key +:+ "</div>")
           Sample.deny Sample.captcha_off 7 []).
  reflexivity.
Defined.

(** ** Determinism *)








(** The signup form at work: a free email with a password passes; an email
    that is too short, a missing email and a taken email do not. *)
Example SignupForm_is_valid_cases :
  outcome (SignupForm_is_valid (Sample.login "eve@example.org" "secret1"))
    Sample.db = Return true
  ∧ outcome (SignupForm_is_valid (Sample.login "a@b" "secret1")) Sample.db
    = Return false
  ∧ outcome (SignupForm_is_valid {[ "password" := "secret1" ]}) Sample.db
    = Return false
  ∧ outcome (SignupForm_is_valid (Sample.login "ann@example.org" "secret1"))
      Sample.db = Return false.
Proof. split_and!; by vm_compute. Qed.

(** ** The username race *)

Lemma filter_username_free (u : string) (db : Database) :
  (∀ r, r ∈ User_objects db → username r ≠ u) →
  filter (λ r, username r = u) (User_objects db) = [].
Proof.
  intros Hfree. induction (User_objects db) as [|r rows IH]; [done|].
  rewrite filter_cons. destruct (decide (username r = u)) as [Heq|_].
  - exfalso. apply (Hfree r); [left|done].
  - apply IH. intros r' Hr'. apply Hfree. by right.
Qed.

(** Validation only reads: the database after [clean_username] is the
    database before it. *)
Lemma clean_username_reads_only (self : UserEditForm) (db : Database) :
  final (clean_username self) db = db.
Proof. unfold final. by rewrite clean_username_run. Qed.

(** A new, free username that does not start with "user" passes. *)
Lemma clean_username_free (self : UserEditForm) (u : string) (db : Database) :
  normalize_username (cleaned_data_username self) = u →
  (∀ r, r ∈ User_objects db → username r ≠ u) →
  Str.startswith u "user" = false →
  clean_username self db = (Return u, db).
Proof.
  intros Hnorm Hfree Hprefix. rewrite clean_username_run. simpl.
  rewrite Hnorm, (filter_username_free u db Hfree), Hprefix. simpl.
  by rewrite !andb_false_r.
Qed.

Lemma save_username_row (uid : nat) (text : string) (db : Database)
  (r : User) :
  r ∈ User_objects db → id r = uid →
  ∃ r', r' ∈ User_objects (save_username uid text db)
        ∧ id r' = uid ∧ username r' = text.
Proof.
  intros Hin Hid. eexists. split.
  - simpl. apply list_elem_of_fmap. exists r. split; [reflexivity|exact Hin].
  - rewrite decide_True by done. done.
Qed.

Lemma save_username_other (uid : nat) (text : string) (db : Database)
  (r : User) :
  r ∈ User_objects db → id r ≠ uid →
  r ∈ User_objects (save_username uid text db).
Proof.
  intros Hin Hid. simpl. apply list_elem_of_fmap. exists r.
  split; [|exact Hin]. by rewrite decide_False.
Qed.

(** C8. [clean_username] is a check-then-set without atomicity: it only
    queries whether another user holds the normalized username and returns
    it, and holds nothing on the database until the later write. So when two
    users submit the same new username and both validations run before
    either write, both pass, both writes go through, and two rows end up
    with that username. *)
Theorem clean_username_race (first second : UserEditForm) (u : string)
  (db : Database) :
  user first ∈ User_objects db →
  user second ∈ User_objects db →
  id (user first) ≠ id (user second) →
  normalize_username (cleaned_data_username first) = u →
  normalize_username (cleaned_data_username second) = u →
  (∀ r, r ∈ User_objects db → username r ≠ u) →
  Str.startswith u "user" = false →
  final (clean_username first) db = db
  ∧ run first second [First; Second] (start db)
    = {| race_db := db; first_stage := Validated u;
         second_stage := Validated u |}
  ∧ ∃ schedule,
      let r := run first second schedule (start db) in
      first_stage r = Saved u ∧ second_stage r = Saved u
      ∧ ∃ ra rb,
          ra ∈ User_objects (race_db r) ∧ rb ∈ User_objects (race_db r)
          ∧ id ra = id (user first) ∧ id rb = id (user second)
          ∧ username ra = u ∧ username rb = u.
Proof.
  intros Hfirst Hsecond Hids Hn1 Hn2 Hfree Hprefix.
  pose proof (clean_username_free first u db Hn1 Hfree Hprefix) as Hc1.
  pose proof (clean_username_free second u db Hn2 Hfree Hprefix) as Hc2.
  split_and!.
  - apply clean_username_reads_only.
  - simpl. rewrite Hc1. simpl. by rewrite Hc2.
  - exists [First; Second; First; Second]. simpl.
    rewrite Hc1. simpl. rewrite Hc2. simpl. split_and!; [done..|].
    destruct (save_username_row (id (user first)) u db _ Hfirst eq_refl)
      as (ra & Hra & Hida & Hua).
    set (db1 := save_username (id (user first)) u db) in *.
    assert (user second ∈ User_objects db1) as Hsecond1.
    { apply save_username_other; [done|]. by intros ?. }
    destruct (save_username_row (id (user second)) u db1 _ Hsecond1 eq_refl)
      as (rb & Hrb & Hidb & Hub).
    exists ra, rb. split_and!; try done.
    apply (save_username_other (id (user second)) u db1 ra); [done|].
    congruence.
Qed.

(** Ann and Bob both ask for "carol". *)
Lemma clean_username_race_witness :
  run (Sample.edit Sample.ann "Carol") (Sample.edit Sample.bob "@carol")
    [First; Second] (start Sample.db)
  = {| race_db := Sample.db; first_stage := Validated "carol";
       second_stage := Validated "carol" |}.
Proof.
  refine (proj1 (proj2
    (clean_username_race (Sample.edit Sample.ann "Carol")
       (Sample.edit Sample.bob "@carol") "carol" Sample.db _ _ _ _ _ _ _))).
  - vm_compute. set_solver.
  - vm_compute. set_solver.
  - vm_compute. lia.
  - reflexivity.
  - reflexivity.
  - intros r Hr. apply list_elem_of_In in Hr. simpl in Hr.
    destruct Hr as [<-|[<-|[]]]; discriminate.
  - reflexivity.
Defined.

(** Run one after the other, the second submission is turned down: the
    failure above comes from the interleaving alone. *)
Lemma clean_username_serial :
  second_stage
    (run (Sample.edit Sample.ann "Carol") (Sample.edit Sample.bob "@carol")
       [First; First; Second; Second] (start Sample.db))
  = Rejected (ValidationError "The username carol already exists ").
Proof. reflexivity. Qed.

(** ** update *)

Section UpdateFrame.

Context {Value : Type}.

Lemma update_item_present (obj : nat) (heap : gmap nat (gmap string Value))
  (attrs : gmap string Value) (name : string) (value : Value) :
  heap !! obj = Some attrs → is_Some (attrs !! name) →
  update_item obj heap (name, value) = <[obj := <[name := value]> attrs]> heap.
Proof.
  intros Hobj Hname. unfold update_item, hasattr, setattr. simpl.
  rewrite Hobj, bool_decide_eq_true_2 by done.
  apply map_eq. intros o. destruct (decide (o = obj)) as [->|Hne].
  - by rewrite lookup_alter_eq, lookup_insert_eq, Hobj.
  - by rewrite lookup_alter_ne, lookup_insert_ne.
Qed.

Lemma update_item_absent (obj : nat) (heap : gmap nat (gmap string Value))
  (attrs : gmap string Value) (name : string) (value : Value) :
  heap !! obj = Some attrs → attrs !! name = None →
  update_item obj heap (name, value) = heap.
Proof.
  intros Hobj Hname. unfold update_item, hasattr. simpl.
  rewrite Hobj, bool_decide_eq_false_2; [done|].
  rewrite Hname. by intros [? ?].
Qed.

(** The loop of [update] over the items of [cleaned_data]. *)
Lemma update_items_frame (obj : nat) (items : list (string * Value)) :
  ∀ (heap : gmap nat (gmap string Value)) (attrs : gmap string Value),
    heap !! obj = Some attrs → NoDup items.*1 →
    ∃ attrs',
      foldl (update_item obj) heap items = <[obj := attrs']> heap
      ∧ (∀ name value, (name, value) ∈ items → is_Some (attrs !! name) →
         attrs' !! name = Some value)
      ∧ (∀ name, name ∉ items.*1 ∨ attrs !! name = None →
         attrs' !! name = attrs !! name).
Proof.
  induction items as [|[n v] items IH]; intros heap attrs Hobj Hnodup.
  - exists attrs. simpl. split_and!.
    + symmetry. by apply insert_id.
    + intros name value Hin. by apply not_elem_of_nil in Hin.
    + done.
  - rewrite fmap_cons in Hnodup. apply NoDup_cons in Hnodup as [Hn Hnodup].
    simpl in Hn. simpl foldl.
    destruct (attrs !! n) as [old|] eqn:Hold.
    + rewrite (update_item_present obj heap attrs n v Hobj) by (by eexists).
      destruct (IH (<[obj := <[n := v]> attrs]> heap) (<[n := v]> attrs))
        as (attrs' & Hfold & Hset & Hkeep);
        [by rewrite lookup_insert_eq|done|].
      exists attrs'. split_and!.
      * by rewrite Hfold, insert_insert_eq.
      * intros name value Hin Hsome. apply elem_of_cons in Hin as [[= -> ->]|Hin].
        -- rewrite Hkeep by (by left). by rewrite lookup_insert_eq.
        -- apply Hset; [done|]. destruct (decide (n = name)) as [->|Hne].
           ++ by rewrite lookup_insert_eq.
           ++ by rewrite lookup_insert_ne.
      * intros name [Hout|Hnone].
        -- rewrite fmap_cons in Hout. apply not_elem_of_cons in Hout as [Hne Hout].
           simpl in Hne. rewrite Hkeep by (by left).
           by rewrite lookup_insert_ne.
        -- assert (n ≠ name) as Hne by congruence.
           rewrite Hkeep; [by rewrite lookup_insert_ne|].
           right. by rewrite lookup_insert_ne.
    + rewrite (update_item_absent obj heap attrs n v Hobj Hold).
      destruct (IH heap attrs Hobj Hnodup) as (attrs' & Hfold & Hset & Hkeep).
      exists attrs'. split_and!; [done| |].
      * intros name value Hin Hsome. apply elem_of_cons in Hin as [[= -> ->]|Hin].
        -- rewrite Hold in Hsome. by destruct Hsome.
        -- by apply Hset.
      * intros name [Hout|Hnone].
        -- rewrite fmap_cons in Hout. apply not_elem_of_cons in Hout as [_ Hout].
           apply Hkeep. by left.
        -- apply Hkeep. by right.
Qed.

(** C9. [update(obj, form)] returns [obj] itself. With an invalid form
    nothing changes. With a valid form, an attribute of [obj] is assigned
    exactly when its name is a key of [cleaned_data] and [obj] already has
    it, and then it gets the cleaned value; every other attribute of [obj],
    and every other object, is left as it was. *)
Theorem update_frame (obj : nat) (form : Form Value)
  (heap : gmap nat (gmap string Value)) (attrs : gmap string Value) :
  heap !! obj = Some attrs →
  NoDup (cleaned_data form).*1 →
  (update obj form heap).1 = obj
  ∧ (is_valid form = false → (update obj form heap).2 = heap)
  ∧ (is_valid form = true →
     ∃ attrs',
       (update obj form heap).2 !! obj = Some attrs'
       ∧ (∀ name value,
            (name, value) ∈ cleaned_data form → is_Some (attrs !! name) →
            attrs' !! name = Some value)
       ∧ (∀ name,
            name ∉ (cleaned_data form).*1 ∨ attrs !! name = None →
            attrs' !! name = attrs !! name)
       ∧ (∀ other, other ≠ obj →
            (update obj form heap).2 !! other = heap !! other)).
Proof.
  intros Hobj Hnodup. unfold update.
  destruct (is_valid form); simpl; split_and!; try done.
  intros _.
  destruct (update_items_frame obj (cleaned_data form) heap attrs Hobj Hnodup)
    as (attrs' & -> & Hset & Hkeep).
  exists attrs'. split_and!; try done.
  - by rewrite lookup_insert_eq.
  - intros other Hne. by rewrite lookup_insert_ne.
Qed.

End UpdateFrame.

(** A user object with a name and a location; the form brings a new
    location and a field the object lacks. *)
Lemma update_frame_witness :
  (update 1 {| is_valid := true;
               cleaned_data := [("location", "Oslo"); ("captcha", "x")] |}
     {[ 1 := {[ "name" := "Ann"; "location" := "Bergen" ]} ]}).1 = 1.
Proof.
  refine (proj1 (update_frame (Value := string) 1
    {| is_valid := true;
       cleaned_data := [("location", "Oslo"); ("captcha", "x")] |}
    {[ 1 := {[ "name" := "Ann"; "location" := "Bergen" ]} ]}
    {[ "name" := "Ann"; "location" := "Bergen" ]} _ _)).
  - reflexivity.
  - vm_compute. repeat constructor; set_solver.
Defined.

Example update_sets_present_attributes :
  (update 1 {| is_valid := true;
               cleaned_data := [("location", "Oslo"); ("captcha", "x")] |}
     {[ 1 := {[ "name" := "Ann"; "location" := "Bergen" ]} ]}).2
  = {[ 1 := {[ "name" := "Ann"; "location" := "Oslo" ]} ]}.
Proof. by vm_compute. Qed.

(** ** Normalization in clean_username *)

Lemma join_split_cons (c : ascii) (s : string) :
  Str.join "" (Str.split (String c s))
  = if Str.isspace c then Str.join "" (Str.split s)
    else String c (Str.join "" (Str.split s)).
Proof.
  simpl. destruct (Str.isspace c); [done|].
  destruct s as [|c' s']; [done|].
  destruct (Str.isspace c').
  - by destruct (Str.split (String c' s')).
  - destruct (Str.split (String c' s')) as [|w [|w' ws]]; reflexivity.
Qed.

Lemma contains_join_split (s : string) (c : ascii) :
  Str.contains (Str.join "" (Str.split s)) c = true →
  Str.contains s c = true ∧ Str.isspace c = false.
Proof.
  induction s as [|d s IH]; [done|].
  rewrite join_split_cons. destruct (Str.isspace d) eqn:Hd.
  - intros [Hin Hsp]%IH. split; [|done]. simpl. rewrite Hin.
    by destruct (decide (c = d)).
  - simpl. destruct (decide (c = d)) as [->|_]; [done|]. apply IH.
Qed.

Lemma contains_lstrip (chars s : string) (c : ascii) :
  Str.contains (Str.lstrip chars s) c = true → Str.contains s c = true.
Proof.
  induction s as [|d s IH]; [done|]. simpl.
  destruct (Str.contains chars d); [|done].
  intros Hin%IH. rewrite Hin. by destruct (decide (c = d)).
Qed.

Lemma contains_rev_app (s1 s2 : string) (c : ascii) :
  Str.contains (String.rev_app s1 s2) c
  = Str.contains s1 c || Str.contains s2 c.
Proof.
  revert s2. induction s1 as [|d s1 IH]; intros s2; [done|]. simpl.
  rewrite IH. simpl. destruct (decide (c = d)); [|done].
  by rewrite orb_true_r.
Qed.

Lemma contains_rev (s : string) (c : ascii) :
  Str.contains (String.rev s) c = Str.contains s c.
Proof. unfold String.rev. rewrite contains_rev_app. simpl. apply orb_false_r. Qed.

Lemma contains_strip (chars s : string) (c : ascii) :
  Str.contains (Str.strip chars s) c = true → Str.contains s c = true.
Proof.
  unfold Str.strip, Str.rstrip. rewrite contains_rev.
  intros Hin%contains_lstrip. rewrite contains_rev in Hin.
  by apply contains_lstrip in Hin.
Qed.

Lemma lower_char_idempotent (c : ascii) :
  Str.lower_char (Str.lower_char c) = Str.lower_char c.
Proof. destruct c as [[] [] [] [] [] [] [] []]; reflexivity. Qed.

Lemma contains_lower (s : string) (c : ascii) :
  Str.contains (Str.lower s) c = true → Str.lower_char c = c.
Proof.
  induction s as [|d s IH]; [done|]. simpl.
  destruct (decide (c = Str.lower_char d)) as [->|_]; [|done].
  intros _. apply lower_char_idempotent.
Qed.

(** X20. What does hold of the value [clean_username] returns: every
    character of it is lowercase and none is white space. *)
Lemma clean_username_lowercase_no_space (self : UserEditForm) (db : Database)
  (text : string) (c : ascii) :
  outcome (clean_username self) db = Return text →
  Str.contains text c = true →
  Str.lower_char c = c ∧ Str.isspace c = false.
Proof.
  unfold outcome. rewrite clean_username_run. simpl.
  destruct (_ && truthy _); [done|]. destruct (_ && _); [done|].
  intros [= <-]. unfold normalize_username.
  intros [Hin Hsp]%contains_join_split. split; [|done].
  by apply contains_strip, contains_lower in Hin.
Qed.

(** The user's current username, when it normalizes to itself, is accepted
    whatever it starts with. *)
Lemma clean_username_own_name (self : UserEditForm) (db : Database) :
  normalize_username (cleaned_data_username self) = username (user self) →
  outcome (clean_username self) db = Return (username (user self)).
Proof.
  intros Hown. unfold outcome. rewrite clean_username_run. simpl.
  rewrite Hown. by rewrite bool_decide_eq_false_2 by (by intros ?).
Qed.

(** C10 does not hold of the code: [strip(" @")] runs before the white
    space is removed, so an '@' that is shielded by a TAB survives. The
    submitted text "@ <TAB>@bob" is cleaned to "@bob", which still starts
    with '@', and cleaning that value again gives "bob". *)
Theorem clean_username_keeps_at_sign :
  outcome (clean_username (Sample.edit Sample.ann Sample.at_tab_bob)) Sample.db
  = Return "@bob"
  ∧ Str.startswith "@bob" "@" = true
  ∧ normalize_username "@bob" = "bob".
Proof. split_and!; reflexivity. Qed.

(** * Further properties *)

(** ** Emails: check_email, clean_email *)

(** X1. [check_email] raises a ValidationError if and only if no user row
    has that email; otherwise it returns (None). Either way the database is
    left as it was. *)
Theorem check_email_raises_iff (e : string) (db : Database) :
  ((∃ m, outcome (check_email e) db = Raise (ValidationError m))
   ↔ ¬ ∃ u, u ∈ User_objects db ∧ email u = e)
  ∧ ((∃ u, u ∈ User_objects db ∧ email u = e) →
     outcome (check_email e) db = Return tt)
  ∧ final (check_email e) db = db.
Proof.
  unfold outcome, final. rewrite check_email_run. simpl.
  pose proof (email_filter_truthy e db) as Hfound.
  destruct (truthy _); split_and!; try done.
  - split; [by intros [m ?]|]. intros Hn. destruct Hn. by apply Hfound.
  - split; [|by eexists]. intros _ Hu. by apply Hfound in Hu.
  - intros Hu. by apply Hfound in Hu.
Qed.

Lemma check_email_raises_iff_witness :
  outcome (check_email "ann@example.org") Sample.db = Return tt.
Proof.
  pose proof (check_email_raises_iff "ann@example.org" Sample.db)
    as (_ & Hret & _).
  apply Hret. exists Sample.ann. split; [vm_compute; set_solver|reflexivity].
Defined.

(** X2. On every email and database exactly one of [unique_email] (signup)
    and [check_email] (login, password reset) raises: an email can sign up
    exactly when it cannot log in. *)
Theorem unique_email_xor_check_email (e : string) (db : Database) :
  returns (outcome (unique_email e) db)
  = negb (returns (outcome (check_email e) db)).
Proof.
  unfold outcome. rewrite unique_email_run, check_email_run. simpl.
  by destruct (truthy _).
Qed.

(** X3. [clean_email] raises a ValidationError if and only if the submitted
    email differs from the user's current one and some user row holds it.
    Otherwise it returns the submitted text as it is; in particular the
    user's own email always passes. The database is left as it was. *)
Theorem clean_email_raises_iff (self : UserEditForm) (db : Database) :
  let text := cleaned_data_email self in
  let taken := ∃ u, u ∈ User_objects db ∧ email u = text in
  ((∃ m, outcome (clean_email self) db = Raise (ValidationError m))
   ↔ text ≠ email (user self) ∧ taken)
  ∧ (¬ (text ≠ email (user self) ∧ taken) →
     outcome (clean_email self) db = Return text)
  ∧ (text = email (user self) → outcome (clean_email self) db = Return text)
  ∧ final (clean_email self) db = db.
Proof.
  intros text taken. unfold outcome, final. rewrite clean_email_run.
  simpl. fold text.
  pose proof (email_filter_truthy text db) as Hfound. fold taken in Hfound.
  case_bool_decide as Hown; destruct (truthy _); simpl; split_and!;
    try done.
  - split; [intros _; split; [done|by apply Hfound]|by eexists].
  - intros Hn. destruct Hn. split; [done|by apply Hfound].
  - split; [by intros [m ?]|]. intros [_ Ht]. by apply Hfound in Ht.
  - split; [by intros [m ?]|]. by intros [? _].
  - split; [by intros [m ?]|]. by intros [? _].
Qed.

Lemma clean_email_raises_iff_witness :
  outcome (clean_email (Sample.edit Sample.ann "ann")) Sample.db
  = Return "ann@example.org".
Proof.
  pose proof (clean_email_raises_iff (Sample.edit Sample.ann "ann") Sample.db)
    as (_ & _ & Hown & _).
  apply Hown. reflexivity.
Defined.

(** X4. For an email other than the user's current one, the profile form
    accepts exactly the emails that signup accepts: [clean_email] returns if
    and only if [unique_email] does. *)
Theorem clean_email_agrees_with_unique_email (self : UserEditForm)
  (db : Database) :
  cleaned_data_email self ≠ email (user self) →
  returns (outcome (clean_email self) db)
  = returns (outcome (unique_email (cleaned_data_email self)) db).
Proof.
  intros Hnew. unfold outcome. rewrite clean_email_run, unique_email_run.
  simpl. rewrite bool_decide_eq_true_2 by done. simpl.
  by destruct (truthy _).
Qed.

Lemma clean_email_agrees_with_unique_email_witness :
  returns (outcome (clean_email
                      {| user := Sample.ann; cleaned_data_files := [];
                         cleaned_data_email := "bob@example.org";
                         cleaned_data_username := "ann" |}) Sample.db)
  = returns (outcome (unique_email "bob@example.org") Sample.db).
Proof.
  apply (clean_email_agrees_with_unique_email
           {| user := Sample.ann; cleaned_data_files := [];
              cleaned_data_email := "bob@example.org";
              cleaned_data_username := "ann" |} Sample.db).
  discriminate.
Defined.

(** ** Usernames: what clean_username accepts *)

Lemma username_filter_truthy (t : string) (db : Database) :
  truthy (filter (λ u, username u = t) (User_objects db)) = true
  ↔ ∃ u, u ∈ User_objects db ∧ username u = t.
Proof. apply (truthy_filter (λ u, username u = t)). Qed.

(** X5. [clean_username] returns exactly in two cases, and then returns the
    normalized text: the text is the user's current username, or no user row
    holds it and it does not start with "user". *)
Theorem clean_username_returns_iff (self : UserEditForm) (db : Database)
  (t : string) :
  let text := normalize_username (cleaned_data_username self) in
  outcome (clean_username self) db = Return t
  ↔ t = text
    ∧ (text = username (user self)
       ∨ (∀ r, r ∈ User_objects db → username r ≠ text)
         ∧ Str.startswith text "user" = false).
Proof.
  intros text. unfold outcome. rewrite clean_username_run. simpl. fold text.
  pose proof (username_filter_truthy text db) as Hfound.
  case_bool_decide as Hown; simpl.
  - destruct (truthy _) eqn:Etaken; simpl.
    + split; [done|]. intros [_ [?|[Hfree _]]]; [done|].
      destruct Hfound as [Hfound _]. destruct (Hfound eq_refl) as (r & Hr & Hu).
      by destruct (Hfree r Hr).
    + destruct (Str.startswith text "user") eqn:Eprefix.
      * split; [done|]. by intros [_ [?|[_ ?]]].
      * split.
        -- intros [= <-]. split; [done|]. right. split; [|done].
           intros r Hr Hu. destruct Hfound as [_ Hfound].
           discriminate Hfound. by exists r.
        -- by intros [-> _].
  - split.
    + intros [= <-]. split; [done|by left].
    + by intros [-> _].
Qed.

Lemma clean_username_returns_iff_witness :
  outcome (clean_username (Sample.edit Sample.ann " @Carol ")) Sample.db
  = Return "carol".
Proof.
  apply (clean_username_returns_iff (Sample.edit Sample.ann " @Carol ")
           Sample.db "carol").
  split; [reflexivity|]. right. split; [|reflexivity].
  intros r Hr. apply list_elem_of_In in Hr. simpl in Hr.
  destruct Hr as [<-|[<-|[]]]; discriminate.
Defined.

(** A returned username made of capitals and blanks only in the input. *)
Lemma clean_username_lowercase_no_space_witness :
  Str.lower_char "c" = "c"%char ∧ Str.isspace "c" = false.
Proof.
  apply (clean_username_lowercase_no_space
           (Sample.edit Sample.ann " @Carol ") Sample.db "carol" "c");
    reflexivity.
Defined.

(** ** Strings: append, reverse and lengths *)

Lemma app_cons (c : ascii) (s1 s2 : string) :
  String c s1 +:+ s2 = String c (s1 +:+ s2).
Proof. reflexivity. Qed.

Lemma app_empty_r (s : string) : s +:+ "" = s.
Proof. induction s as [|c s IH]; [done|]. by rewrite app_cons, IH. Qed.

Lemma length_app (s1 s2 : string) :
  String.length (s1 +:+ s2) = String.length s1 + String.length s2.
Proof.
  induction s1 as [|c s1 IH]; [done|]. rewrite app_cons. simpl. by rewrite IH.
Qed.

Lemma rev_app_app (s1 s2 s3 : string) :
  String.rev_app s1 s2 +:+ s3 = String.rev_app s1 (s2 +:+ s3).
Proof.
  revert s2. induction s1 as [|c s1 IH]; intros s2; [done|].
  simpl. by rewrite IH.
Qed.

Lemma rev_cons (c : ascii) (s : string) :
  String.rev (String c s) = String.rev s +:+ String c "".
Proof. unfold String.rev. simpl. by rewrite rev_app_app. Qed.

Lemma rev_app_rev_app (s1 s2 s3 : string) :
  String.rev_app (String.rev_app s1 s2) s3 = String.rev_app s2 (s1 +:+ s3).
Proof.
  revert s2 s3. induction s1 as [|c s1 IH]; intros s2 s3; [done|].
  simpl. by rewrite IH.
Qed.

Lemma rev_involutive (s : string) : String.rev (String.rev s) = s.
Proof.
  unfold String.rev. rewrite rev_app_rev_app. simpl. apply app_empty_r.
Qed.

Lemma rev_snoc (s : string) (c : ascii) :
  String.rev (s +:+ String c "") = String c (String.rev s).
Proof.
  rewrite <- (rev_involutive (String c (String.rev s))).
  by rewrite rev_cons, rev_involutive.
Qed.

Lemma length_rev_app (s1 s2 : string) :
  String.length (String.rev_app s1 s2)
  = String.length s1 + String.length s2.
Proof.
  revert s2. induction s1 as [|c s1 IH]; intros s2; [done|].
  simpl. rewrite IH. simpl. lia.
Qed.

Lemma length_rev (s : string) :
  String.length (String.rev s) = String.length s.
Proof. unfold String.rev. rewrite length_rev_app. simpl. lia. Qed.

Lemma length_lower (s : string) :
  String.length (Str.lower s) = String.length s.
Proof. induction s as [|c s IH]; [done|]. simpl. by rewrite IH. Qed.

Lemma length_lstrip (chars s : string) :
  (String.length (Str.lstrip chars s) ≤ String.length s)%nat.
Proof.
  induction s as [|c s IH]; [done|]. simpl.
  destruct (Str.contains chars c); simpl; lia.
Qed.

Lemma length_rstrip (chars s : string) :
  (String.length (Str.rstrip chars s) ≤ String.length s)%nat.
Proof.
  unfold Str.rstrip. rewrite length_rev.
  etrans; [apply length_lstrip|]. by rewrite length_rev.
Qed.

Lemma length_strip (chars s : string) :
  (String.length (Str.strip chars s) ≤ String.length s)%nat.
Proof.
  unfold Str.strip. etrans; [apply length_rstrip|apply length_lstrip].
Qed.

Lemma length_join_split (s : string) :
  (String.length (Str.join "" (Str.split s)) ≤ String.length s)%nat.
Proof.
  induction s as [|c s IH]; [done|]. rewrite join_split_cons.
  destruct (Str.isspace c); simpl; lia.
Qed.

Lemma length_normalize_le_lower (text : string) :
  (Str.len (normalize_username text) ≤ Str.len (Str.lower text))%nat.
Proof.
  unfold normalize_username, Str.len.
  etrans; [apply length_join_split|apply length_strip].
Qed.

(** X6. After the lowercasing, cleaning only takes characters away: whatever
    [clean_username] returns is at most as long as the lowercased
    submission, [text.lower()]. *)
Theorem clean_username_not_longer_than_lowered (self : UserEditForm)
  (db : Database) (t : string) :
  outcome (clean_username self) db = Return t →
  (Str.len t ≤ Str.len (Str.lower (cleaned_data_username self)))%nat.
Proof.
  unfold outcome. rewrite clean_username_run. simpl.
  destruct (_ && truthy _); [done|]. destruct (_ && _); [done|].
  intros [= <-]. apply length_normalize_le_lower.
Qed.

Lemma clean_username_not_longer_than_lowered_witness :
  (Str.len "carol" ≤ Str.len (Str.lower " @Carol "))%nat.
Proof.
  apply (clean_username_not_longer_than_lowered
           (Sample.edit Sample.ann " @Carol ") Sample.db "carol").
  reflexivity.
Defined.

(** ** Usernames: the empty username *)

Lemma lstrip_all (chars s : string) :
  (∀ c, Str.contains s c = true → Str.contains chars c = true) →
  Str.lstrip chars s = "".
Proof.
  induction s as [|d s IH]; [done|]. intros Hall. simpl.
  rewrite (Hall d) by (simpl; by rewrite decide_True).
  apply IH. intros c Hc. apply Hall. simpl. rewrite Hc.
  by destruct (decide (c = d)).
Qed.

Lemma contains_blank_at (c : ascii) :
  Str.contains " @" c = true ↔ c = " "%char ∨ c = "@"%char.
Proof.
  simpl. destruct (decide (c = " "%char)) as [->|?];
    [by split; [left|]|].
  destruct (decide (c = "@"%char)) as [->|?]; [by split; [right|]|].
  split; [done|]. by intros [?|?].
Qed.

Lemma lower_blank_at (s : string) :
  (∀ c, Str.contains s c = true → Str.contains " @" c = true) →
  Str.lower s = s.
Proof.
  induction s as [|d s IH]; [done|]. intros Hall. simpl.
  rewrite IH.
  - f_equal. assert (Str.contains " @" d = true) as Hd.
    { apply Hall. simpl. by rewrite decide_True. }
    apply contains_blank_at in Hd as [->| ->]; reflexivity.
  - intros c Hc. apply Hall. simpl. rewrite Hc. by destruct (decide (c = d)).
Qed.

(** X7. A submitted username made only of '@' and spaces is cleaned to the
    empty string, and the empty string is accepted as a username as long as
    no other user has it: the check behind the required field does not keep
    the stored username from being empty. *)
Theorem clean_username_accepts_empty (self : UserEditForm) (db : Database) :
  (∀ c, Str.contains (cleaned_data_username self) c = true →
        Str.contains " @" c = true) →
  (∀ r, r ∈ User_objects db → username r ≠ "") →
  outcome (clean_username self) db = Return "".
Proof.
  intros Hall Hfree.
  assert (normalize_username (cleaned_data_username self) = "") as Hnorm.
  { unfold normalize_username. rewrite (lower_blank_at _ Hall).
    unfold Str.strip. by rewrite (lstrip_all _ _ Hall). }
  unfold outcome.
  by rewrite (clean_username_free self "" db Hnorm Hfree eq_refl).
Qed.

Lemma clean_username_accepts_empty_witness :
  outcome (clean_username (Sample.edit Sample.ann "@ @")) Sample.db
  = Return "".
Proof.
  apply (clean_username_accepts_empty (Sample.edit Sample.ann "@ @")
           Sample.db).
  - intros c. simpl.
    destruct (decide (c = "@"%char)) as [->|?]; [done|].
    destruct (decide (c = " "%char)) as [->|?]; done.
  - intros r Hr. apply list_elem_of_In in Hr. simpl in Hr.
    destruct Hr as [<-|[<-|[]]]; discriminate.
Defined.

(** ** Usernames: fixed points of the normalization *)

Lemma contains_head (c : ascii) (s : string) :
  Str.contains (String c s) c = true.
Proof. simpl. by rewrite decide_True. Qed.

Lemma contains_tail (c d : ascii) (s : string) :
  Str.contains s c = true → Str.contains (String d s) c = true.
Proof. intros Hc. simpl. rewrite Hc. by destruct (decide (c = d)). Qed.

Lemma contains_app (s1 s2 : string) (c : ascii) :
  Str.contains (s1 +:+ s2) c = Str.contains s1 c || Str.contains s2 c.
Proof.
  induction s1 as [|d s1 IH]; [done|]. rewrite app_cons. simpl.
  rewrite IH. by destruct (decide (c = d)).
Qed.

Lemma lower_fixed (s : string) :
  (∀ c, Str.contains s c = true → Str.lower_char c = c) → Str.lower s = s.
Proof.
  induction s as [|d s IH]; [done|]. intros Hall. simpl.
  rewrite (Hall d (contains_head d s)), IH; [done|].
  intros c Hc. by apply Hall, contains_tail.
Qed.

Lemma join_split_fixed (s : string) :
  (∀ c, Str.contains s c = true → Str.isspace c = false) →
  Str.join "" (Str.split s) = s.
Proof.
  induction s as [|d s IH]; [done|]. intros Hall.
  rewrite join_split_cons, (Hall d (contains_head d s)), IH; [done|].
  intros c Hc. by apply Hall, contains_tail.
Qed.

Lemma lstrip_fixed (chars s : string) :
  (∀ c t, s = String c t → Str.contains chars c = false) →
  Str.lstrip chars s = s.
Proof. destruct s as [|c t]; [done|]. intros Hhead. simpl. by rewrite (Hhead c t). Qed.

Lemma rstrip_fixed (chars s : string) :
  (∀ c t, s = t +:+ String c "" → Str.contains chars c = false) →
  Str.rstrip chars s = s.
Proof.
  intros Hlast. unfold Str.rstrip.
  rewrite lstrip_fixed; [apply rev_involutive|].
  intros c t Hrev. apply (Hlast c (String.rev t)).
  by rewrite <- (rev_involutive s), Hrev, rev_cons.
Qed.

(** A lowercase text without white space and without '@' at either end is
    left alone by the three rewriting steps. *)
Lemma normalize_username_fixed (s : string) :
  (∀ c, Str.contains s c = true →
        Str.lower_char c = c ∧ Str.isspace c = false) →
  (∀ t, s ≠ "@" +:+ t) → (∀ t, s ≠ t +:+ "@") →
  normalize_username s = s.
Proof.
  intros Hchars Hhead Hlast. unfold normalize_username.
  rewrite lower_fixed by (intros c Hc; by apply Hchars).
  assert (Str.strip " @" s = s) as ->.
  { unfold Str.strip. rewrite lstrip_fixed.
    - apply rstrip_fixed. intros c t ->.
      destruct (Str.contains " @" c) eqn:Hc; [|done].
      apply contains_blank_at in Hc as [->| ->].
      + assert (Str.isspace " " = false) as Hsp; [|done].
        apply Hchars. rewrite contains_app. simpl. apply orb_true_r.
      + by destruct (Hlast t).
    - intros c t ->.
      destruct (Str.contains " @" c) eqn:Hc; [|done].
      apply contains_blank_at in Hc as [->| ->].
      + assert (Str.isspace " " = false) as Hsp; [|done].
        apply Hchars, contains_head.
      + by destruct (Hhead t). }
  apply join_split_fixed. intros c Hc. by apply Hchars.
Qed.

Lemma lower_app (s1 s2 : string) :
  Str.lower (s1 +:+ s2) = Str.lower s1 +:+ Str.lower s2.
Proof.
  induction s1 as [|c s1 IH]; [done|]. rewrite app_cons. simpl.
  by rewrite IH.
Qed.

Lemma lstrip_snoc (chars s : string) (c : ascii) :
  Str.contains chars c = true →
  Str.lstrip chars (s +:+ String c "") = ""
  ∨ ∃ u, Str.lstrip chars (s +:+ String c "") = u +:+ String c ""
         ∧ (String.length u ≤ String.length s)%nat.
Proof.
  intros Hc. induction s as [|d s IH].
  - left. simpl. unfold String.app. simpl. by rewrite Hc.
  - rewrite app_cons. simpl. destruct (Str.contains chars d).
    + destruct IH as [->|(u & -> & Hu)]; [by left|].
      right. exists u. split; [done|]. simpl. lia.
    + right. by exists (String d s).
Qed.

Lemma length_normalize_le_rstrip (s : string) :
  (String.length (normalize_username s)
   ≤ String.length (Str.rstrip " @" (Str.lstrip " @" (Str.lower s))))%nat.
Proof. unfold normalize_username. apply length_join_split. Qed.

(** X8. The fixed points of the normalization in [clean_username] (lowercase,
    strip of " @", removal of white space) are exactly the texts whose
    characters are all lowercase and not white space and that neither start
    nor end with '@'. *)
Theorem normalize_username_fixed_iff (s : string) :
  normalize_username s = s
  ↔ (∀ c, Str.contains s c = true →
          Str.lower_char c = c ∧ Str.isspace c = false)
    ∧ (∀ t, s ≠ "@" +:+ t) ∧ (∀ t, s ≠ t +:+ "@").
Proof.
  split; [|intros (? & ? & ?); by apply normalize_username_fixed].
  intros Hfix. split_and!.
  - intros c Hc. rewrite <- Hfix in Hc. unfold normalize_username in Hc.
    apply contains_join_split in Hc as [Hc Hsp]. split; [|done].
    by apply contains_strip, contains_lower in Hc.
  - intros t ->.
    pose proof (length_normalize_le_rstrip ("@" +:+ t)) as Hlen.
    rewrite Hfix in Hlen.
    pose proof (length_rstrip " @" (Str.lstrip " @" (Str.lower ("@" +:+ t))))
      as Hr.
    change (Str.lstrip " @" (Str.lower ("@" +:+ t)))
      with (Str.lstrip " @" (Str.lower t)) in Hr, Hlen.
    pose proof (length_lstrip " @" (Str.lower t)) as Hl.
    rewrite length_lower in Hl.
    change (String.length ("@" +:+ t)) with (S (String.length t)) in Hlen.
    lia.
  - intros t ->.
    pose proof (length_normalize_le_rstrip (t +:+ "@")) as Hlen.
    rewrite Hfix, length_app, lower_app in Hlen. simpl in Hlen.
    change (Str.lower_char "@") with "@"%char in Hlen.
    destruct (lstrip_snoc " @" (Str.lower t) "@" eq_refl)
      as [Hw|(u & Hw & Hu)].
    + rewrite Hw in Hlen. simpl in Hlen. lia.
    + rewrite Hw in Hlen. unfold Str.rstrip in Hlen. rewrite rev_snoc, length_rev in Hlen.
      simpl in Hlen.
      pose proof (length_lstrip " @" (String.rev u)) as Hl.
      rewrite length_rev in Hl. rewrite length_lower in Hu. lia.
Qed.

(** ** Usernames: when the normalization is idempotent *)

Lemma contains_lower_inv (s : string) (c : ascii) :
  Str.contains (Str.lower s) c = true →
  ∃ d, Str.contains s d = true ∧ c = Str.lower_char d.
Proof.
  induction s as [|e s IH]; [done|]. simpl.
  destruct (decide (c = Str.lower_char e)) as [->|_].
  - intros _. exists e. by rewrite decide_True.
  - intros (d & Hd & ->)%IH. exists d. split; [|done].
    rewrite Hd. by destruct (decide (d = e)).
Qed.

Lemma isspace_lower_char (d : ascii) :
  Str.isspace (Str.lower_char d) = true → Str.lower_char d = d.
Proof. destruct d as [[] [] [] [] [] [] [] []]; by vm_compute. Qed.

Lemma lstrip_head (chars s : string) (c : ascii) (r : string) :
  Str.lstrip chars s = String c r → Str.contains chars c = false.
Proof.
  induction s as [|d s IH]; [done|]. simpl.
  destruct (Str.contains chars d) eqn:Hd; [done|]. by intros [= <- _].
Qed.

Lemma lstrip_suffix (chars s : string) :
  ∃ p, s = p +:+ Str.lstrip chars s.
Proof.
  induction s as [|d s [p IH]]; [by exists ""|]. simpl.
  destruct (Str.contains chars d); [|by exists ""].
  exists (String d p). by rewrite app_cons, <- IH.
Qed.

Lemma app_assoc_str (s1 s2 s3 : string) :
  (s1 +:+ s2) +:+ s3 = s1 +:+ (s2 +:+ s3).
Proof.
  induction s1 as [|c s1 IH]; [done|]. by rewrite !app_cons, IH.
Qed.

Lemma rev_app_distr_str (s1 s2 : string) :
  String.rev (s1 +:+ s2) = String.rev s2 +:+ String.rev s1.
Proof.
  induction s1 as [|c s1 IH].
  - by rewrite app_empty_r.
  - by rewrite app_cons, !rev_cons, IH, app_assoc_str.
Qed.

Lemma rstrip_prefix (chars s : string) :
  ∃ q, s = Str.rstrip chars s +:+ q.
Proof.
  unfold Str.rstrip.
  destruct (lstrip_suffix chars (String.rev s)) as [p Hp].
  exists (String.rev p).
  by rewrite <- rev_app_distr_str, <- Hp, rev_involutive.
Qed.

Lemma rstrip_last (chars s : string) (c : ascii) (r : string) :
  Str.rstrip chars s = r +:+ String c "" → Str.contains chars c = false.
Proof.
  unfold Str.rstrip. intros Hr.
  apply (lstrip_head chars (String.rev s) c (String.rev r)).
  by rewrite <- rev_snoc, <- Hr, rev_involutive.
Qed.

Lemma snoc_cases (s : string) :
  s = "" ∨ ∃ r c, s = r +:+ String c "".
Proof.
  destruct (String.rev s) as [|c r] eqn:Hrev.
  - left. by rewrite <- (rev_involutive s), Hrev.
  - right. exists (String.rev r), c.
    by rewrite <- (rev_involutive s), Hrev, rev_cons.
Qed.

Lemma snoc_inj_last (s1 s2 : string) (c1 c2 : ascii) :
  s1 +:+ String c1 "" = s2 +:+ String c2 "" → c1 = c2.
Proof.
  intros Heq. apply (f_equal String.rev) in Heq.
  rewrite !rev_snoc in Heq. by injection Heq.
Qed.

Lemma join_split_app (s1 s2 : string) :
  Str.join "" (Str.split (s1 +:+ s2))
  = Str.join "" (Str.split s1) +:+ Str.join "" (Str.split s2).
Proof.
  induction s1 as [|c s1 IH]; [done|].
  rewrite app_cons, !join_split_cons, IH. by destruct (Str.isspace c).
Qed.

(** The normalized text has no '@' at either end when the only white space
    in the input is the space character. *)
Lemma normalize_username_ends (text : string) :
  (∀ c, Str.contains text c = true → Str.isspace c = true → c = " "%char) →
  (∀ t, normalize_username text ≠ "@" +:+ t)
  ∧ (∀ t, normalize_username text ≠ t +:+ "@").
Proof.
  intros Hspaces. unfold normalize_username.
  set (u := Str.strip " @" (Str.lower text)).
  assert (∀ c, Str.contains u c = true → Str.contains " @" c = false →
               Str.isspace c = false) as Hblank.
  { intros c Hc Hout. destruct (Str.isspace c) eqn:Hsp; [|done].
    apply contains_strip, contains_lower_inv in Hc as (d & Hd & ->).
    pose proof (isspace_lower_char d Hsp) as Hfix.
    rewrite Hfix in Hsp, Hout.
    by rewrite (Hspaces d Hd Hsp) in Hout. }
  split.
  - intros t Ht. destruct u as [|c r] eqn:Hu; [done|].
    assert (Str.contains " @" c = false) as Hc.
    { destruct (rstrip_prefix " @" (Str.lstrip " @" (Str.lower text)))
        as [q Hq].
      fold (Str.strip " @" (Str.lower text)) in Hq. fold u in Hq.
      rewrite Hu, app_cons in Hq. by apply lstrip_head in Hq. }
    rewrite join_split_cons, (Hblank c (contains_head c r) Hc) in Ht.
    injection Ht as -> _. done.
  - intros t Ht. destruct (snoc_cases u) as [Hu|(r & c & Hu)].
    + rewrite Hu in Ht. by destruct t.
    + assert (Str.contains " @" c = false) as Hc
        by exact (rstrip_last " @" (Str.lstrip " @" (Str.lower text)) c r Hu).
      assert (Str.isspace c = false) as Hsp.
      { apply Hblank; [|done]. rewrite Hu, contains_app.
        rewrite contains_head. apply orb_true_r. }
      rewrite Hu, join_split_app, join_split_cons, Hsp in Ht.
      apply snoc_inj_last in Ht. by subst c.
Qed.

(** X9. When the submitted username has no white space other than spaces,
    what [clean_username] returns is a clean username: it has no '@' at
    either end, and cleaning it again gives the same text. *)
Theorem clean_username_idempotent (self : UserEditForm) (db : Database)
  (t : string) :
  (∀ c, Str.contains (cleaned_data_username self) c = true →
        Str.isspace c = true → c = " "%char) →
  outcome (clean_username self) db = Return t →
  normalize_username t = t
  ∧ (∀ s, t ≠ "@" +:+ s) ∧ (∀ s, t ≠ s +:+ "@").
Proof.
  intros Hspaces Hret.
  assert (t = normalize_username (cleaned_data_username self)) as ->.
  { unfold outcome in Hret. rewrite clean_username_run in Hret.
    simpl in Hret. destruct (_ && truthy _); [done|].
    destruct (_ && _); [done|]. by injection Hret. }
  destruct (normalize_username_ends _ Hspaces) as [Hhead Hlast].
  split_and!; [|done..].
  apply normalize_username_fixed; [|done..].
  intros c Hc. unfold normalize_username in Hc.
  apply contains_join_split in Hc as [Hc Hsp]. split; [|done].
  by apply contains_strip, contains_lower in Hc.
Qed.

Lemma clean_username_idempotent_witness :
  normalize_username "carol" = "carol".
Proof.
  refine (proj1 (clean_username_idempotent
                   (Sample.edit Sample.ann " @Carol ") Sample.db "carol"
                   _ eq_refl)).
  intros c. simpl.
  repeat (destruct (decide _) as [->|?]; [by vm_compute|]). done.
Defined.

(** ** update: what it keeps *)

Section UpdateMore.

Context {Value : Type}.

Lemma update_items_dom (obj : nat) (items : list (string * Value)) :
  ∀ (heap : gmap nat (gmap string Value)) (attrs : gmap string Value),
    heap !! obj = Some attrs →
    ∃ attrs',
      foldl (update_item obj) heap items = <[obj := attrs']> heap
      ∧ dom attrs' = dom attrs.
Proof.
  induction items as [|[n v] items IH]; intros heap attrs Hobj.
  - exists attrs. split; [|done]. symmetry. by apply insert_id.
  - simpl foldl. destruct (attrs !! n) as [old|] eqn:Hold.
    + rewrite (update_item_present obj heap attrs n v Hobj) by (by eexists).
      destruct (IH (<[obj := <[n := v]> attrs]> heap) (<[n := v]> attrs))
        as (attrs' & Hfold & Hdom); [by rewrite lookup_insert_eq|].
      exists attrs'. split; [by rewrite Hfold, insert_insert_eq|].
      rewrite Hdom, dom_insert_L.
      assert (n ∈ dom attrs) by (apply elem_of_dom; by eexists).
      set_solver.
    + rewrite (update_item_absent obj heap attrs n v Hobj Hold).
      by apply IH.
Qed.

(** X10. [update] never adds or removes an attribute and never creates an
    object: after the call [obj] has the same attribute names as before and
    the heap holds the same objects. *)
Theorem update_keeps_names (obj : nat) (form : Form Value)
  (heap : gmap nat (gmap string Value)) (attrs : gmap string Value) :
  heap !! obj = Some attrs →
  ∃ attrs',
    (update obj form heap).2 !! obj = Some attrs'
    ∧ dom attrs' = dom attrs
    ∧ dom (update obj form heap).2 = dom heap.
Proof.
  intros Hobj. unfold update. destruct (is_valid form); simpl.
  - destruct (update_items_dom obj (cleaned_data form) heap attrs Hobj)
      as (attrs' & -> & Hdom).
    exists attrs'. split_and!; [by rewrite lookup_insert_eq|done|].
    rewrite dom_insert_L.
    assert (obj ∈ dom heap) by (apply elem_of_dom; by eexists).
    set_solver.
  - by exists attrs.
Qed.

(** X11. [update] is idempotent: copying the same form onto the object a
    second time changes nothing more. *)
Theorem update_idempotent (obj : nat) (form : Form Value)
  (heap : gmap nat (gmap string Value)) (attrs : gmap string Value) :
  heap !! obj = Some attrs →
  NoDup (cleaned_data form).*1 →
  update obj form (update obj form heap).2 = update obj form heap.
Proof.
  intros Hobj Hnodup. unfold update.
  destruct (is_valid form) eqn:Hvalid; simpl; rewrite ?Hvalid; [|done].
  f_equal.
  destruct (update_items_frame obj (cleaned_data form) heap attrs Hobj Hnodup)
    as (attrs1 & -> & Hset1 & Hkeep1).
  destruct (update_items_frame obj (cleaned_data form)
              (<[obj := attrs1]> heap) attrs1)
    as (attrs2 & -> & Hset2 & Hkeep2); [by rewrite lookup_insert_eq|done|].
  rewrite insert_insert_eq. f_equal.
  apply map_eq. intros name.
  destruct (decide (name ∈ (cleaned_data form).*1)) as [Hin|Hout].
  - apply list_elem_of_fmap in Hin as ([n v] & -> & Hin). simpl.
    destruct (attrs !! n) as [old|] eqn:Hold.
    + rewrite (Hset1 n v Hin) by (by eexists).
      apply (Hset2 n v Hin). rewrite (Hset1 n v Hin) by (by eexists).
      by eexists.
    + apply Hkeep2. right. rewrite Hkeep1 by (by right). done.
  - apply Hkeep2. by left.
Qed.

(** X12. The order in which [cleaned_data] lists its items does not matter
    to [update]: two forms with the same verdict and the same items, in any
    order, leave the same heap. *)
Theorem update_order_irrelevant (obj : nat) (form1 form2 : Form Value)
  (heap : gmap nat (gmap string Value)) (attrs : gmap string Value) :
  heap !! obj = Some attrs →
  NoDup (cleaned_data form1).*1 →
  is_valid form1 = is_valid form2 →
  cleaned_data form1 ≡ₚ cleaned_data form2 →
  update obj form1 heap = update obj form2 heap.
Proof.
  intros Hobj Hnodup1 Hvalid Hperm. unfold update. rewrite <- Hvalid.
  destruct (is_valid form1); [|done]. f_equal.
  assert (NoDup (cleaned_data form2).*1) as Hnodup2 by (by rewrite <- Hperm).
  destruct (update_items_frame obj _ heap attrs Hobj Hnodup1)
    as (attrs1 & -> & Hset1 & Hkeep1).
  destruct (update_items_frame obj _ heap attrs Hobj Hnodup2)
    as (attrs2 & -> & Hset2 & Hkeep2).
  f_equal. apply map_eq. intros name.
  destruct (decide (name ∈ (cleaned_data form1).*1)) as [Hin|Hout].
  - apply list_elem_of_fmap in Hin as ([n v] & -> & Hin). simpl.
    destruct (attrs !! n) as [old|] eqn:Hold.
    + rewrite (Hset1 n v Hin) by (by eexists).
      symmetry. apply Hset2; [by rewrite <- Hperm|by eexists].
    + rewrite Hkeep1, Hkeep2 by (by right). done.
  - rewrite Hkeep1 by (by left). symmetry. apply Hkeep2. left.
    by rewrite <- Hperm.
Qed.

End UpdateMore.

Lemma update_keeps_names_witness :
  ∃ attrs',
    (update 1 {| is_valid := true;
                 cleaned_data := [("location", "Oslo"); ("captcha", "x")] |}
       {[ 1 := {[ "name" := "Ann"; "location" := "Bergen" ]} ]}).2 !! 1
    = Some attrs'
    ∧ dom attrs' = dom ({[ "name" := "Ann"; "location" := "Bergen" ]}
                         : gmap string string)
    ∧ dom (update 1 {| is_valid := true;
                       cleaned_data :=
                         [("location", "Oslo"); ("captcha", "x")] |}
             {[ 1 := {[ "name" := "Ann"; "location" := "Bergen" ]} ]}).2
      = dom ({[ 1 := {[ "name" := "Ann"; "location" := "Bergen" ]} ]}
              : gmap nat (gmap string string)).
Proof.
  apply (update_keeps_names (Value := string) 1
    {| is_valid := true;
       cleaned_data := [("location", "Oslo"); ("captcha", "x")] |}
    {[ 1 := {[ "name" := "Ann"; "location" := "Bergen" ]} ]}
    {[ "name" := "Ann"; "location" := "Bergen" ]}).
  reflexivity.
Defined.

Lemma update_idempotent_witness :
  update 1 {| is_valid := true;
              cleaned_data := [("location", "Oslo"); ("captcha", "x")] |}
    (update 1 {| is_valid := true;
                 cleaned_data := [("location", "Oslo"); ("captcha", "x")] |}
       {[ 1 := {[ "name" := "Ann"; "location" := "Bergen" ]} ]}).2
  = update 1 {| is_valid := true;
                cleaned_data := [("location", "Oslo"); ("captcha", "x")] |}
      {[ 1 := {[ "name" := "Ann"; "location" := "Bergen" ]} ]}.
Proof.
  apply (update_idempotent (Value := string) 1
    {| is_valid := true;
       cleaned_data := [("location", "Oslo"); ("captcha", "x")] |}
    {[ 1 := {[ "name" := "Ann"; "location" := "Bergen" ]} ]}
    {[ "name" := "Ann"; "location" := "Bergen" ]}).
  - reflexivity.
  - vm_compute. repeat constructor; set_solver.
Defined.

Lemma update_order_irrelevant_witness :
  update 1 {| is_valid := true;
              cleaned_data := [("location", "Oslo"); ("name", "Anna")] |}
    {[ 1 := {[ "name" := "Ann"; "location" := "Bergen" ]} ]}
  = update 1 {| is_valid := true;
                cleaned_data := [("name", "Anna"); ("location", "Oslo")] |}
      {[ 1 := {[ "name" := "Ann"; "location" := "Bergen" ]} ]}.
Proof.
  apply (update_order_irrelevant (Value := string) 1
    {| is_valid := true;
       cleaned_data := [("location", "Oslo"); ("name", "Anna")] |}
    {| is_valid := true;
       cleaned_data := [("name", "Anna"); ("location", "Oslo")] |}
    {[ 1 := {[ "name" := "Ann"; "location" := "Bergen" ]} ]}
    {[ "name" := "Ann"; "location" := "Bergen" ]}).
  - reflexivity.
  - vm_compute. repeat constructor; set_solver.
  - reflexivity.
  - apply Permutation_swap.
Defined.

(** ** LoginForm.clean *)

Lemma LoginForm_clean_run (check_password : User → string → bool)
  (first : list User → option User) (cleaned_data : gmap string string)
  (e p : string) (db : Database) :
  cleaned_data !! "email" = Some e → cleaned_data !! "password" = Some p →
  e ≠ "" → p ≠ "" →
  LoginForm_clean check_password first cleaned_data db
  = (match first (filter (λ u, email u = e) (User_objects db)) with
     | Some u =>
         if check_password u p then Return tt
         else Raise (ValidationError
                       "Unable to validate this email/password combination")
     | None =>
         Raise (ValidationError
                  "Unable to validate this email/password combination")
     end, db).
Proof.
  intros He Hp Hne Hnp. unfold LoginForm_clean, truthy_str. rewrite He, Hp.
  rewrite !bool_decide_eq_false_2 by done. simpl.
  unfold bind. rewrite User_objects_filter_run.
  destruct (first _) as [u|]; [|done]. by destruct (check_password u p).
Qed.

(** X13. [LoginForm.clean] checks nothing unless both the email and the
    password came through field validation and are not empty: when either is
    missing or empty it returns, whatever the database holds. *)
Theorem LoginForm_clean_skips (check_password : User → string → bool)
  (first : list User → option User) (cleaned_data : gmap string string)
  (db : Database) :
  truthy_str (cleaned_data !! "email") = false
  ∨ truthy_str (cleaned_data !! "password") = false →
  LoginForm_clean check_password first cleaned_data db = (Return tt, db).
Proof.
  unfold LoginForm_clean.
  destruct (cleaned_data !! "email") as [e|];
    destruct (cleaned_data !! "password") as [p|]; try done.
  intros [-> | ->]; [done|]. by rewrite andb_false_r.
Qed.

Lemma LoginForm_clean_skips_witness :
  LoginForm_clean Sample.check_password head
    {[ "password" := "guess" ]} Sample.db
  = (Return tt, Sample.db).
Proof.
  apply (LoginForm_clean_skips Sample.check_password head
           {[ "password" := "guess" ]} Sample.db).
  left. reflexivity.
Defined.

(** X14. A login that [LoginForm.clean] lets through is backed by a user:
    when email and password are both given and the call returns, some user
    row has that email and accepts that password. *)
Theorem LoginForm_clean_sound (check_password : User → string → bool)
  (first : list User → option User) (cleaned_data : gmap string string)
  (e p : string) (db : Database) :
  (∀ rows u, first rows = Some u → u ∈ rows) →
  cleaned_data !! "email" = Some e → cleaned_data !! "password" = Some p →
  e ≠ "" → p ≠ "" →
  outcome (LoginForm_clean check_password first cleaned_data) db = Return tt →
  ∃ u, u ∈ User_objects db ∧ email u = e ∧ check_password u p = true.
Proof.
  intros Hfirst He Hp Hne Hnp. unfold outcome.
  rewrite (LoginForm_clean_run _ _ _ e p db He Hp Hne Hnp). simpl.
  destruct (first _) as [u|] eqn:Hu; [|done].
  destruct (check_password u p) eqn:Hcheck; [|done]. intros _.
  apply Hfirst in Hu.
  apply (list_elem_of_filter (λ u, email u = e)) in Hu as [Hmail Hin].
  by exists u.
Qed.

Lemma LoginForm_clean_sound_witness :
  ∃ u, u ∈ User_objects Sample.db ∧ email u = "bob@example.org"
       ∧ Sample.check_password u "pw-bob" = true.
Proof.
  apply (LoginForm_clean_sound Sample.check_password head
           (Sample.login "bob@example.org" "pw-bob")
           "bob@example.org" "pw-bob" Sample.db).
  - intros rows u Hu. destruct rows as [|r rows]; [done|].
    injection Hu as ->. left.
  - reflexivity.
  - reflexivity.
  - discriminate.
  - discriminate.
  - reflexivity.
Defined.

(** X15. [LoginForm.clean] answers an unknown email and a wrong password
    with one and the same error, so the error does not tell which of the two
    was wrong. *)
Theorem LoginForm_clean_one_error (check_password : User → string → bool)
  (first : list User → option User) (cleaned_data : gmap string string)
  (e p : string) (db : Database) :
  first [] = None →
  cleaned_data !! "email" = Some e → cleaned_data !! "password" = Some p →
  e ≠ "" → p ≠ "" →
  ((∀ u, u ∈ User_objects db → email u ≠ e) →
   outcome (LoginForm_clean check_password first cleaned_data) db
   = Raise (ValidationError
              "Unable to validate this email/password combination"))
  ∧ (∀ u, first (filter (λ u, email u = e) (User_objects db)) = Some u →
          check_password u p = false →
          outcome (LoginForm_clean check_password first cleaned_data) db
          = Raise (ValidationError
                     "Unable to validate this email/password combination"))
  ∧ (∀ err,
       outcome (LoginForm_clean check_password first cleaned_data) db
       = Raise err →
       err = ValidationError
               "Unable to validate this email/password combination").
Proof.
  intros Hnil He Hp Hne Hnp. unfold outcome.
  rewrite (LoginForm_clean_run _ _ _ e p db He Hp Hne Hnp). simpl.
  split_and!.
  - intros Hnone.
    assert (filter (λ u, email u = e) (User_objects db) = []) as ->.
    { induction (User_objects db) as [|r rows IH]; [done|].
      rewrite filter_cons. destruct (decide (email r = e)) as [Heq|_].
      - exfalso. apply (Hnone r); [left|done].
      - apply IH. intros r' Hr'. apply Hnone. by right. }
    by rewrite Hnil.
  - intros u -> Hwrong. by rewrite Hwrong.
  - intros err.
    destruct (first (filter (λ u, email u = e) (User_objects db))) as [u|];
      [|congruence].
    destruct (check_password u p); congruence.
Qed.

Lemma LoginForm_clean_one_error_witness :
  outcome (LoginForm_clean Sample.check_password head
             (Sample.login "eve@example.org" "pw-eve")) Sample.db
  = Raise (ValidationError
             "Unable to validate this email/password combination").
Proof.
  refine (proj1 (LoginForm_clean_one_error Sample.check_password head
                   (Sample.login "eve@example.org" "pw-eve")
                   "eve@example.org" "pw-eve" Sample.db _ _ _ _ _) _).
  - reflexivity.
  - reflexivity.
  - reflexivity.
  - discriminate.
  - discriminate.
  - intros u Hu. apply list_elem_of_In in Hu. simpl in Hu.
    destruct Hu as [<-|[<-|[]]]; discriminate.
Defined.

(** ** __init__: the remove field *)

Lemma populate_remove_lookup (cs : list (nat * string))
  (fields : gmap string Field) (field : Field) :
  fields !! "remove" = Some field →
  populate_remove cs fields !! "remove"
  = (if truthy cs then Some (set_choices cs field) else None)
  ∧ ∀ name, name ≠ "remove" →
            populate_remove cs fields !! name = fields !! name.
Proof.
  intros Hremove. unfold populate_remove. destruct (truthy cs); split.
  - by rewrite lookup_alter_eq, Hremove.
  - intros name Hne. by rewrite lookup_alter_ne.
  - by rewrite lookup_delete_eq.
  - intros name Hne. by rewrite lookup_delete_ne.
Qed.

Lemma UserEditForm_base_remove :
  (list_to_map UserEditForm_base_fields : gmap string Field) !! "remove"
  = Some {| label := Some "Remove uploaded files"; choices := [] |}.
Proof. by vm_compute. Qed.

Lemma TopLevel_base_remove (codes : PostCodes) :
  (list_to_map (TopLevel_base_fields codes) : gmap string Field) !! "remove"
  = Some {| label := Some "Remove uploaded files"; choices := [] |}.
Proof. by vm_compute. Qed.

Lemma TopLevel_base_tag_val (codes : PostCodes) :
  (list_to_map (TopLevel_base_fields codes) : gmap string Field) !! "tag_val"
  = None.
Proof. by vm_compute. Qed.

Lemma truthy_upload_choices (uploads : list Upload) :
  truthy (upload_choices uploads) = truthy uploads.
Proof. by destruct uploads. Qed.

(** X16. After [UserEditForm.__init__] the form has a remove field exactly
    when the profile has stored files; the field then offers one choice per
    stored file, its id and name, in the order of the files. Every other
    declared field is as declared. *)
Theorem UserEditForm_init_remove (u : User) :
  (is_Some (UserEditForm_init u !! "remove") ↔ profile_files u ≠ [])
  ∧ (∀ field, UserEditForm_init u !! "remove" = Some field →
       choices field = upload_choices (profile_files u)
       ∧ length (choices field) = length (profile_files u)
       ∧ label field = Some "Remove uploaded files")
  ∧ (∀ name, name ≠ "remove" →
       UserEditForm_init u !! name
       = (list_to_map UserEditForm_base_fields : gmap string Field) !! name).
Proof.
  unfold UserEditForm_init.
  destruct (populate_remove_lookup (upload_choices (profile_files u))
              (list_to_map UserEditForm_base_fields)
              {| label := Some "Remove uploaded files"; choices := [] |}
              UserEditForm_base_remove) as [Hremove Hother].
  rewrite truthy_upload_choices in Hremove.
  split_and!; [| |exact Hother].
  - rewrite Hremove. destruct (profile_files u); simpl.
    + split; [by intros [? ?]|done].
    + split; [done|by eexists].
  - intros field. rewrite Hremove.
    destruct (truthy (profile_files u)); [|done]. intros [= <-]. simpl.
    split_and!; [done| |done]. unfold upload_choices. by rewrite length_fmap.
Qed.

(** X17. After [TopLevel.__init__] the form has a remove field exactly when
    it edits an existing post that has files; a new post (None) never gets
    one. The field then offers one choice per file of the post, and every
    other declared field is as declared. *)
Theorem TopLevel_init_remove (codes : PostCodes) (post : option Post) :
  (is_Some (TopLevel_init codes post !! "remove")
   ↔ ∃ p, post = Some p ∧ post_files p ≠ [])
  ∧ (∀ field p, post = Some p →
       TopLevel_init codes post !! "remove" = Some field →
       choices field = upload_choices (post_files p)
       ∧ length (choices field) = length (post_files p))
  ∧ (∀ name, name ≠ "remove" →
       TopLevel_init codes post !! name
       = (list_to_map (TopLevel_base_fields codes) : gmap string Field)
           !! name).
Proof.
  unfold TopLevel_init.
  set (cs := match post with
             | Some p => upload_choices (post_files p)
             | None => []
             end).
  destruct (populate_remove_lookup cs
              (list_to_map (TopLevel_base_fields codes))
              {| label := Some "Remove uploaded files"; choices := [] |}
              (TopLevel_base_remove codes)) as [Hremove Hother].
  split_and!; [| |exact Hother].
  - rewrite Hremove. subst cs. destruct post as [[files]|]; simpl.
    + rewrite truthy_upload_choices. destruct files as [|f files]; simpl.
      * split; [by intros [? ?]|]. by intros (p & [= <-] & ?).
      * split; [|by eexists]. intros _. by eexists.
    + split; [by intros [? ?]|]. by intros (p & ? & _).
  - intros field p ->. rewrite Hremove. subst cs.
    destruct (truthy _); [|done]. intros [= <-]. simpl.
    split; [done|]. unfold upload_choices. by rewrite length_fmap.
Qed.

(** ** TopLevel.clean_tag_val *)

(** X18. [TopLevel.clean_tag_val] reads [cleaned_data['tag_val']], but the
    form declares no field of that name (the tag field is [tags]): on any
    [cleaned_data] whose keys are fields of [TopLevel] the method raises
    KeyError and never produces the joined tags. *)
Theorem clean_tag_val_key_error (parse_tags : string → list string)
  (codes : PostCodes) (cleaned_data : gmap string string) :
  dom cleaned_data
  ⊆ dom (list_to_map (TopLevel_base_fields codes) : gmap string Field) →
  clean_tag_val parse_tags cleaned_data = KeyError "tag_val".
Proof.
  intros Hkeys. unfold clean_tag_val.
  destruct (cleaned_data !! "tag_val") as [text|] eqn:Htag; [|done].
  exfalso.
  assert ("tag_val" ∈ dom cleaned_data) as Hin
    by (apply elem_of_dom; by eexists).
  apply Hkeys, elem_of_dom in Hin as [field Hfield].
  by rewrite TopLevel_base_tag_val in Hfield.
Qed.

Lemma clean_tag_val_key_error_witness :
  clean_tag_val Sample.parse_tags {[ "tags" := "rna-seq assembly" ]}
  = KeyError "tag_val".
Proof.
  apply (clean_tag_val_key_error Sample.parse_tags Sample.codes
           {[ "tags" := "rna-seq assembly" ]}).
  rewrite dom_singleton_L. apply singleton_subseteq_l.
  apply elem_of_dom. by eexists.
Defined.

(** ** The username check without interleaving *)

(** X19. Run one after the other, two submissions of the same new username
    do not both get through: once the first one is saved, the validation of
    the second raises the already-exists error. *)
Theorem clean_username_serial_safe (first second : UserEditForm)
  (u : string) (db : Database) :
  user first ∈ User_objects db →
  user second ∈ User_objects db →
  id (user first) ≠ id (user second) →
  normalize_username (cleaned_data_username first) = u →
  normalize_username (cleaned_data_username second) = u →
  (∀ r, r ∈ User_objects db → username r ≠ u) →
  Str.startswith u "user" = false →
  let r := run first second [First; First; Second; Second] (start db) in
  first_stage r = Saved u
  ∧ second_stage r
    = Rejected (ValidationError
                  ("The username " +:+ u +:+ " already exists ")).
Proof.
  intros Hfirst Hsecond Hids Hn1 Hn2 Hfree Hprefix.
  pose proof (clean_username_free first u db Hn1 Hfree Hprefix) as Hc1.
  set (db1 := save_username (id (user first)) u db).
  assert (clean_username second db1
          = (Raise (ValidationError
                      ("The username " +:+ u +:+ " already exists ")), db1))
    as Hc2.
  { rewrite clean_username_run. cbv zeta. rewrite Hn2.
    rewrite bool_decide_eq_true_2
      by (intros Heq; by apply (Hfree _ Hsecond)).
    destruct (save_username_row (id (user first)) u db _ Hfirst eq_refl)
      as (ra & Hra & _ & Hua).
    fold db1 in Hra.
    assert (truthy (filter (λ r, username r = u) (User_objects db1)) = true)
      as ->; [|done].
    apply username_filter_truthy. by exists ra. }
  cbn [run start step first_stage second_stage race_db].
  rewrite Hc1. cbn [run step first_stage second_stage race_db].
  fold db1. rewrite Hc2. done.
Qed.

Lemma clean_username_serial_safe_witness :
  second_stage
    (run (Sample.edit Sample.ann "Carol") (Sample.edit Sample.bob "@carol")
       [First; First; Second; Second] (start Sample.db))
  = Rejected (ValidationError "The username carol already exists ").
Proof.
  refine (proj2
    (clean_username_serial_safe (Sample.edit Sample.ann "Carol")
       (Sample.edit Sample.bob "@carol") "carol" Sample.db _ _ _ _ _ _ _)).
  - vm_compute. set_solver.
  - vm_compute. set_solver.
  - vm_compute. lia.
  - reflexivity.
  - reflexivity.
  - intros r Hr. apply list_elem_of_In in Hr. simpl in Hr.
    destruct Hr as [<-|[<-|[]]]; discriminate.
  - reflexivity.
Defined.
